(** * OutputCounter: a device-resident array of atomically incremented counters

    Shallow embedding of [src/main.cpp].  The struct [OutputCounter] holds a
    queue handle, the number of counters [N] and a raw USM device pointer
    [d_ptr]; its methods allocate, zero, increment, read back and free the
    device buffer.  The SYCL runtime calls the program makes
    ([malloc_device], [free], [parallel_for], [atomic_ref::fetch_add]) are
    modelled in [Module Sycl]; the struct and the driver follow the source
    line by line in [Module Counter] and [Module Driver]. *)

From Stdlib Require Import ZArith Lia.
From stdpp Require Import base numbers list list_numbers gmap strings pretty.

Local Open Scope Z_scope.

(** ** Machine integers *)

Module Ints.

(** [std::size_t] is an unsigned 64-bit integer; arithmetic wraps. *)
Definition size_t_modulus : Z := 2 ^ 64.
Definition to_size_t (z : Z) : Z := z mod size_t_modulus.
Definition is_size_t (z : Z) : Prop := 0 <= z < size_t_modulus.
Definition sizeof_size_t : Z := 8.

(** [int] is a signed 32-bit integer; converting a [size_t] to it keeps the
    low 32 bits (two's complement). *)
Definition INT_MAX : Z := 2 ^ 31 - 1.
Definition size_t_to_int (z : Z) : Z := (z + 2 ^ 31) mod 2 ^ 32 - 2 ^ 31.

(** The ceiling of [a / b] for a positive divisor. *)
Definition ceil_div (a b : Z) : Z := - ((- a) / b).

End Ints.
Export Ints.

(** ** Outcomes of a computation

    A call returns, throws a C++ exception, or has undefined behaviour (an
    access outside a live allocation, a division by zero). *)

Inductive exn : Type :=
  | sycl_exception (code : Z).

Inductive res (A : Type) : Type :=
  | Ok (a : A)
  | Throw (e : exn)
  | UB.
Arguments Ok {A} a.
Arguments Throw {A} e.
Arguments UB {A}.

Definition bind {A B : Type} (m : res A) (k : A -> res B) : res B :=
  match m with
  | Ok a => k a
  | Throw e => Throw e
  | UB => UB
  end.

Notation "'let*' x ':=' m 'in' k" := (bind m (fun x => k))
  (at level 10, x pattern, m at level 100, k at level 200).

(** ** The SYCL runtime, as far as the program uses it *)

Module Sycl.

(** A USM device pointer: null, or the base of an allocation. *)
Inductive pointer : Type :=
  | nullptr
  | usm (b : positive).

(** Device memory: the live USM allocations, each an array of [size_t] cells. *)
Abbreviation device := (gmap positive (list Z)).

(** What one call of the allocator does is decided by the runtime, not by the
    program: it returns a pointer (null when the request cannot be met) to
    memory of unspecified contents, or it throws. *)
Inductive malloc_outcome : Type :=
  | malloc_returns (p : pointer) (contents : nat -> Z)
  | malloc_throws (e : exn).

(** [sycl::malloc_device(numBytes, queue)] *)
Definition malloc_device (numBytes : Z) (o : malloc_outcome) (d : device)
  : res (pointer * device) :=
  match o with
  | malloc_throws e => Throw e
  | malloc_returns nullptr _ => Ok (nullptr, d)
  | malloc_returns (usm b) contents =>
      let cells :=
        (fun k => to_size_t (contents k))
          <$> seq 0 (Z.to_nat (numBytes / sizeof_size_t)) in
      Ok (usm b, <[b := cells]> d)
  end.

(** The allocator yields no memory: it returns null or throws. *)
Definition allocation_fails (o : malloc_outcome) : Prop :=
  match o with
  | malloc_returns (usm _) _ => False
  | _ => True
  end.

(** [sycl::free(ptr, queue)] *)
Definition free (p : pointer) (d : device) : res device :=
  match p with
  | nullptr => Ok d
  | usm b =>
      match d !! b with
      | Some _ => Ok (delete b d)
      | None => UB
      end
  end.

(** [p[i]] read *)
Definition load (p : pointer) (i : Z) (d : device) : res Z :=
  match p with
  | nullptr => UB
  | usm b =>
      match d !! b with
      | None => UB
      | Some cells =>
          if decide (0 <= i) then
            match cells !! Z.to_nat i with
            | Some v => Ok v
            | None => UB
            end
          else UB
      end
  end.

(** [p[i] = v] *)
Definition store (p : pointer) (i : Z) (v : Z) (d : device) : res device :=
  match p with
  | nullptr => UB
  | usm b =>
      match d !! b with
      | None => UB
      | Some cells =>
          if decide (0 <= i < Z.of_nat (length cells)) then
            Ok (<[b := <[Z.to_nat i := v]> cells]> d)
          else UB
      end
  end.

(** [sycl::atomic_ref<size_t, relaxed, device>(p[i]).fetch_add(v)]: one
    indivisible read-modify-write of the cell, returning the value read. *)
Definition fetch_add (p : pointer) (i : Z) (v : Z) (d : device)
  : res (Z * device) :=
  let* old := load p i d in
  let* d' := store p i (to_size_t (old + v)) d in
  Ok (old, d').

(** [a[i] = v] through an accessor of a [sycl::buffer] over host memory. *)
Definition accessor_write (a : list Z) (i : Z) (v : Z) : res (list Z) :=
  if decide (0 <= i < Z.of_nat (length a)) then Ok (<[Z.to_nat i := v]> a)
  else UB.

(** The work items of [sycl::range<1>(n)] are the ids [0 .. n-1]. *)
Definition work_items (n : Z) : list Z := seqZ 0 n.

(** The runtime runs the work items of one dispatch in an order of its own
    choosing.  Every kernel of this program touches shared memory in one
    indivisible step per work item, so an execution of a dispatch is an
    order of its work items: a schedule. *)
Definition schedule (n : Z) (sched : list Z) : Prop :=
  sched ≡ₚ work_items n.

#[global] Instance schedule_dec n sched : Decision (schedule n sched).
Proof. unfold schedule. apply _. Defined.

Fixpoint run_items {S : Type} (kernel : Z -> S -> res S) (sched : list Z)
  (s : S) : res S :=
  match sched with
  | [] => Ok s
  | idx :: rest => let* s' := kernel idx s in run_items kernel rest s'
  end.

(** [queue->submit([&](handler &cgh) { cgh.parallel_for(range<1>(n), kernel); })
      .wait_and_throw()] executed along the schedule [sched] of its [n] work
    items.  An order that is not a schedule of the dispatch is no execution
    of it; every statement below assumes [schedule n sched]. *)
Definition parallel_for {S : Type} (n : Z) (sched : list Z)
  (kernel : Z -> S -> res S) (s : S) : res S :=
  if decide (schedule n sched) then run_items kernel sched s else UB.

End Sycl.
Export Sycl.

(** ** struct OutputCounter *)

Module Counter.

(** The three members; [queue] is a pointer to a [sycl::queue] the struct
    does not own, kept here as an opaque handle. *)
Record OutputCounter : Type := {
  queue : positive;
  N : Z;
  d_ptr : pointer
}.

(** A method runs on the object it is called on and on device memory, and
    hands back its result together with both. *)
Definition method (A : Type) : Type :=
  OutputCounter -> device -> res (A * OutputCounter * device).

(** [OutputCounter(sycl::queue &queue, const size_t N)] *)
Definition construct (queue : positive) (N : Z) (o : malloc_outcome)
  (d : device) : res (OutputCounter * device) :=
  let* (p, d') := malloc_device (to_size_t (N * sizeof_size_t)) o d in
  Ok ({| queue := queue; N := N; d_ptr := p |}, d').

(** [inline void free()] *)
Definition free : method unit := fun this d =>
  match d_ptr this with
  | nullptr => Ok (tt, this, d)
  | p =>
      let* d' := Sycl.free p d in
      Ok (tt, {| queue := queue this; N := N this; d_ptr := nullptr |}, d')
  end.

(** [inline void pre_kernel()] *)
Definition pre_kernel (sched : list Z) : method unit := fun this d =>
  let k_ptr := d_ptr this in
  let* d' := parallel_for (N this) sched (fun idx => store k_ptr idx 0) d in
  Ok (tt, this, d').

(** The kernel of [get_counts]: [a_counts[idx] = k_ptr[idx]]. *)
Definition copy_cell (k_ptr : pointer) (idx : Z) (s : device * list Z)
  : res (device * list Z) :=
  let '(d, a_counts) := s in
  let* v := load k_ptr idx d in
  let* a_counts' := accessor_write a_counts idx v in
  Ok (d, a_counts').

(** [inline std::vector<size_t> get_counts() const]: the vector is created
    with [N] zeros, the buffer over it is filled by the kernel and written
    back to the vector that is returned.  The host allocation of the vector
    is taken to succeed, as it does when [N] is the size of a live device
    block; for an [N] beyond what a vector can hold the constructor of the
    vector throws before anything is dispatched, which is not modelled. *)
Definition get_counts (sched : list Z) : method (list Z) := fun this d =>
  let host_counts := replicate (Z.to_nat (N this)) 0 in
  let b_counts := host_counts in
  let k_ptr := d_ptr this in
  let* (d', a_counts) :=
    parallel_for (N this) sched (copy_cell k_ptr) (d, b_counts) in
  Ok (a_counts, this, d').

(** [inline size_t get_add_output(const int index) const] *)
Definition get_add_output (index : Z) : method Z := fun this d =>
  let* (old, d') := fetch_add (d_ptr this) index 1 d in
  Ok (old, this, d').

(** The struct invariant of an instance that has not been released: [d_ptr]
    is the base of a live allocation of exactly [N] cells. *)
Definition valid (this : OutputCounter) (d : device) : Prop :=
  exists b cells,
    d_ptr this = usm b /\ d !! b = Some cells /\ Z.of_nat (length cells) = N this.

(** The cells [d_ptr] points to. *)
Definition cells_of (this : OutputCounter) (d : device) : option (list Z) :=
  match d_ptr this with
  | nullptr => None
  | usm b => d !! b
  end.

End Counter.
Export Counter.

(** ** The driver *)

Module Driver.

(** [a % b] on [size_t]. *)
Definition size_t_rem (a b : Z) : res Z :=
  if decide (b = 0) then UB else Ok (a mod b).

(** The kernel of the workload: work item [idx] calls
    [get_add_output(idx % count)] on its bitwise copy of the counter and
    drops the returned position; the argument is converted to the [int]
    parameter. *)
Definition increment_kernel (counter : OutputCounter) (count : Z) (idx : Z)
  (d : device) : res device :=
  let* r := size_t_rem idx count in
  let* (index, _, d') := get_add_output (size_t_to_int r) counter d in
  Ok d'.

(** The same call with the returned position kept: work item [idx] calls
    [get_add_output(target idx)] and the value it receives is recorded under
    [idx].  The record is an observation of the run, not program memory. *)
Definition position_kernel (counter : OutputCounter) (target : Z -> Z)
  (idx : Z) (s : device * gmap Z Z) : res (device * gmap Z Z) :=
  let* (index, _, d') := get_add_output (target idx) counter s.1 in
  Ok (d', <[idx := index]> s.2).

(** The cell work item [idx] of the driver increments. *)
Definition driver_target (count : Z) (idx : Z) : Z :=
  size_t_to_int (idx mod count).

(** The lines [std::cout << cx << std::endl] writes, one for each count. *)
Definition print_counts (counts : list Z) : list string :=
  (fun cx => pretty cx) <$> counts.

(** The schedules of the three dispatches of one run. *)
Record schedules : Type := {
  sched_zero : list Z;
  sched_work : list Z;
  sched_read : list Z
}.

(** [main] with the number of counters [count] and the size of the workload
    [W] as parameters; the result is the exit code, the lines written to
    standard output and the device memory left behind. *)
Definition driver (count W : Z) (device_name : string) (q : positive)
  (o : malloc_outcome) (ss : schedules) (d : device)
  : res (Z * list string * device) :=
  let banner := ("Using " +:+ device_name)%string in
  let* (output_counter, d) := construct q count o d in
  let* (_, output_counter, d) := pre_kernel (sched_zero ss) output_counter d in
  let* d :=
    parallel_for W (sched_work ss) (increment_kernel output_counter count) d in
  let* (counts, output_counter, d) :=
    get_counts (sched_read ss) output_counter d in
  let out := banner :: print_counts counts in
  let* (_, output_counter, d) := Counter.free output_counter d in
  Ok (0, out, d).

(** [int main(int argc, char** argv)]: four counters, 1024 work items. *)
Definition main : string -> positive -> malloc_outcome -> schedules ->
  device -> res (Z * list string * device) :=
  driver 4 1024.

End Driver.
Export Driver.

(** ** What a dispatch leaves behind, in closed form *)

Module Effects.

(** The array after [a[i] = f i] for each [i] of a list of positions, in
    the order of the list. *)
Definition write_all (f : Z -> Z) (positions : list Z) (a : list Z) : list Z :=
  foldl (fun acc i => <[Z.to_nat i := f i]> acc) a positions.

(** The value of cell [i], zero outside the array. *)
Definition cell (cells : list Z) (i : Z) : Z :=
  if decide (0 <= i) then default 0 (cells !! Z.to_nat i) else 0.

(** The work items of [items] that [target] sends to cell [i], and how many
    they are. *)
Definition callers (target : Z -> Z) (i : Z) (items : list Z) : list Z :=
  filter (fun idx => target idx = i) items.

Definition hits (target : Z -> Z) (i : Z) (items : list Z) : nat :=
  length (callers target i items).

(** One [get_add_output(target idx)] of work item [idx] on the cells, with
    the value it returns recorded for the work item. *)
Definition record_step (target : Z -> Z) (s : list Z * gmap Z Z) (idx : Z)
  : list Z * gmap Z Z :=
  let t := target idx in
  (<[Z.to_nat t := to_size_t (cell s.1 t + 1)]> s.1, <[idx := cell s.1 t]> s.2).

Definition record_all (target : Z -> Z) (sched : list Z)
  (s : list Z * gmap Z Z) : list Z * gmap Z Z :=
  foldl (record_step target) s sched.

(** The counts the workload of [W] items leaves in [count] cells: cell [i]
    holds the ceiling of [(W - i) / count]. *)
Definition expected_counts (count W : Z) : list Z :=
  (fun i => ceil_div (W - i) count) <$> work_items count.

(** Two device memories that agree on every allocation but the one at [p]. *)
Definition same_outside (p : pointer) (d d' : device) : Prop :=
  forall b', usm b' <> p -> d' !! b' = d !! b'.

(** A pointer through which nothing can be accessed: null, or the base of
    an allocation that is not live (any more). *)
Definition dead (p : pointer) (d : device) : Prop :=
  match p with
  | nullptr => True
  | usm b => d !! b = None
  end.

(** The sum of the cells. *)
Definition total (cells : list Z) : Z := foldr Z.add 0 cells.

End Effects.
Export Effects.

(** ** Concrete instances used to exercise the statements *)

Module Examples.

Definition counter4 : OutputCounter :=
  {| queue := 1%positive; N := 4; d_ptr := usm 5%positive |}.

Definition released4 : OutputCounter :=
  {| queue := 1%positive; N := 4; d_ptr := nullptr |}.

Definition memory4 : device := {[ 5%positive := [3; 0; 7; 1] ]}.

Definition zeroed4 : device := {[ 5%positive := [0; 0; 0; 0] ]}.

(** An allocator that hands out block 5 filled with sevens. *)
Definition sevens : malloc_outcome :=
  malloc_returns (usm 5%positive) (fun _ => 7).

(** An allocator that cannot meet the request and says so with a null
    pointer. *)
Definition exhausted : malloc_outcome :=
  malloc_returns nullptr (fun _ => 0).

(** Six work items, the even ones calling on cell 0 and the odd ones on
    cell 1, and an order in which they may run. *)
Definition parity (idx : Z) : Z := idx mod 2.

Definition six_shuffled : list Z := [4; 1; 5; 0; 3; 2].

(** Orders for the three dispatches of the driver: none of them the order
    of the ids. *)
Definition backwards : schedules :=
  {| sched_zero := [2; 0; 3; 1];
     sched_work := reverse (work_items 1024);
     sched_read := [3; 2; 1; 0] |}.

(** A counter with 2^32 cells, all zero: more cells than an [int] index
    can reach. *)
Definition wide_counter : OutputCounter :=
  {| queue := 1%positive; N := 2 ^ 32; d_ptr := usm 5%positive |}.

Definition wide_memory : device :=
  {[ 5%positive := replicate (Z.to_nat (2 ^ 32)) 0 ]}.

End Examples.

(** A concrete order is checked against the work items by evaluation. *)
Ltac decide_schedule :=
  apply (bool_decide_unpack (schedule _ _)); vm_compute; exact I.

(** * Properties *)

(** ** Single accesses to a live allocation *)

Section Access.
Context (d : device) (b : positive) (cells : list Z).
Hypothesis live : d !! b = Some cells.

Lemma load_inside i v :
  0 <= i -> cells !! Z.to_nat i = Some v -> load (usm b) i d = Ok v.
Proof.
  intros Hi Hv. unfold load. rewrite live.
  destruct (decide (0 <= i)); [|lia]. by rewrite Hv.
Qed.

Lemma load_outside i :
  ~ (0 <= i < Z.of_nat (length cells)) -> load (usm b) i d = UB.
Proof.
  intros Hi. unfold load. rewrite live.
  destruct (decide (0 <= i)); [|done].
  rewrite (lookup_ge_None_2 cells (Z.to_nat i)); [done|lia].
Qed.

Lemma store_inside i v :
  0 <= i < Z.of_nat (length cells) ->
  store (usm b) i v d = Ok (<[b := <[Z.to_nat i := v]> cells]> d).
Proof.
  intros Hi. unfold store. rewrite live.
  by destruct (decide (0 <= i < Z.of_nat (length cells))).
Qed.

Lemma fetch_add_inside i v old :
  0 <= i -> cells !! Z.to_nat i = Some old ->
  fetch_add (usm b) i v d
  = Ok (old, <[b := <[Z.to_nat i := to_size_t (old + v)]> cells]> d).
Proof.
  intros Hi Hold. unfold fetch_add.
  rewrite (load_inside i old) by done. cbn [bind].
  rewrite store_inside; [done|].
  apply lookup_lt_Some in Hold. lia.
Qed.

Lemma fetch_add_outside i v :
  ~ (0 <= i < Z.of_nat (length cells)) -> fetch_add (usm b) i v d = UB.
Proof. intros Hi. unfold fetch_add. by rewrite load_outside. Qed.
End Access.

Lemma cell_in_range (cells : list Z) (n i : Z) :
  Z.of_nat (length cells) = n -> 0 <= i < n ->
  exists v, cells !! Z.to_nat i = Some v.
Proof.
  intros Hlen Hi. apply lookup_lt_is_Some_2. lia.
Qed.

(** ** get_add_output *)

(** C1: on an instance that has not been released and for an index in
    [0, N), [get_add_output] returns the value the cell held before the call
    and leaves the cell one higher (modulo 2^64, the range of [size_t]); the
    other cells of the buffer, the other allocations and the object itself
    are as before. *)
Theorem get_add_output_fetches_and_increments this d index :
  valid this d ->
  0 <= index < N this ->
  exists b cells old,
    d_ptr this = usm b /\ d !! b = Some cells /\
    cells !! Z.to_nat index = Some old /\
    get_add_output index this d
    = Ok (old, this, <[b := <[Z.to_nat index := to_size_t (old + 1)]> cells]> d) /\
    (<[Z.to_nat index := to_size_t (old + 1)]> cells) !! Z.to_nat index
    = Some (to_size_t (old + 1)) /\
    (0 <= old < size_t_modulus - 1 -> to_size_t (old + 1) = old + 1) /\
    (forall j, j <> Z.to_nat index ->
       (<[Z.to_nat index := to_size_t (old + 1)]> cells) !! j = cells !! j) /\
    (forall b', b' <> b ->
       (<[b := <[Z.to_nat index := to_size_t (old + 1)]> cells]> d) !! b' = d !! b').
Proof.
  intros (b & cells & Hp & Hlive & Hlen) Hi.
  destruct (cell_in_range cells (N this) index Hlen Hi) as [old Hold].
  exists b, cells, old. repeat split; try done.
  - unfold get_add_output. rewrite Hp.
    by rewrite (fetch_add_inside d b cells Hlive index 1 old) by (done || lia).
  - apply list_lookup_insert_eq. by apply lookup_lt_Some in Hold.
  - intros Hr. unfold to_size_t, size_t_modulus in *. apply Z.mod_small. lia.
  - intros j Hj. by apply list_lookup_insert_ne.
  - intros b' Hb'. by apply lookup_insert_ne.
Qed.

(** C9: with the index in [0, N) and the instance not released, the access
    of [get_add_output] is inside the buffer and the call returns; the
    function tests nothing itself: outside that range the very same call is
    an access outside the buffer. *)
Theorem get_add_output_in_bounds this d index :
  valid this d ->
  (0 <= index < N this ->
   exists old d', get_add_output index this d = Ok (old, this, d')) /\
  (~ (0 <= index < N this) -> get_add_output index this d = UB).
Proof.
  intros (b & cells & Hp & Hlive & Hlen). split.
  - intros Hi.
    destruct (cell_in_range cells (N this) index Hlen Hi) as [old Hold].
    eexists old, _. unfold get_add_output. rewrite Hp.
    by rewrite (fetch_add_inside d b cells Hlive index 1 old) by (done || lia).
  - intros Hi. unfold get_add_output. rewrite Hp.
    rewrite (fetch_add_outside d b cells Hlive); [done|lia].
Qed.

Lemma counter4_valid : valid Examples.counter4 Examples.memory4.
Proof. by exists 5%positive, [3; 0; 7; 1]. Qed.

Lemma get_add_output_fetches_and_increments_witness :
  valid Examples.counter4 Examples.memory4 /\
  0 <= 2 < N Examples.counter4 /\
  get_add_output 2 Examples.counter4 Examples.memory4
  = Ok (7, Examples.counter4, {[ 5%positive := [3; 0; 8; 1] ]}).
Proof.
  split; [exact counter4_valid|]. split; [by vm_compute|].
  destruct (get_add_output_fetches_and_increments
              Examples.counter4 Examples.memory4 2 counter4_valid)
    as (b & cells & old & Hp & Hlive & Hold & Hcall & _); [by vm_compute|].
  injection Hp as <-.
  assert (cells = [3; 0; 7; 1]) as -> by (vm_compute in Hlive; congruence).
  assert (old = 7) as -> by (vm_compute in Hold; congruence).
  rewrite Hcall. f_equal.
Defined.

Lemma get_add_output_in_bounds_witness :
  valid Examples.counter4 Examples.memory4 /\
  (exists old d',
     get_add_output 3 Examples.counter4 Examples.memory4
     = Ok (old, Examples.counter4, d')) /\
  get_add_output 4 Examples.counter4 Examples.memory4 = UB /\
  get_add_output (-1) Examples.counter4 Examples.memory4 = UB.
Proof.
  split; [exact counter4_valid|].
  pose proof (get_add_output_in_bounds Examples.counter4 Examples.memory4)
    as H.
  split; [|split].
  - apply (H 3 counter4_valid). by vm_compute.
  - apply (H 4 counter4_valid). vm_compute. intros [_ ?]. done.
  - apply (H (-1) counter4_valid). vm_compute. intros [? _]. done.
Defined.

(** ** free *)

Lemma free_valid this d b cells :
  d_ptr this = usm b -> d !! b = Some cells ->
  Counter.free this d
  = Ok (tt, {| queue := queue this; N := N this; d_ptr := nullptr |},
        delete b d).
Proof.
  intros Hp Hlive. unfold Counter.free. rewrite Hp. cbn [Sycl.free].
  by rewrite Hlive.
Qed.

Lemma free_null this d :
  d_ptr this = nullptr -> Counter.free this d = Ok (tt, this, d).
Proof. intros Hp. unfold Counter.free. by rewrite Hp. Qed.

(** C6: [free] on an instance whose handle is valid releases the allocation
    and leaves [d_ptr] null; on an instance whose handle is already null it
    changes nothing.  Hence a second [free] right after the first returns
    with the object and the device memory unchanged. *)
Theorem free_releases_then_does_nothing this d :
  (valid this d ->
   exists b this' d',
     d_ptr this = usm b /\
     Counter.free this d = Ok (tt, this', d') /\
     d_ptr this' = nullptr /\ d' = delete b d /\ d' !! b = None /\
     Counter.free this' d' = Ok (tt, this', d')) /\
  (d_ptr this = nullptr -> Counter.free this d = Ok (tt, this, d)).
Proof.
  split.
  - intros (b & cells & Hp & Hlive & _).
    exists b, {| queue := queue this; N := N this; d_ptr := nullptr |},
      (delete b d).
    repeat split; try done.
    + by apply (free_valid this d b cells).
    + apply lookup_delete_eq.
  - apply free_null.
Qed.

Lemma free_releases_then_does_nothing_witness :
  valid Examples.counter4 Examples.memory4 /\
  Counter.free Examples.counter4 Examples.memory4
  = Ok (tt, Examples.released4, ∅) /\
  Counter.free Examples.released4 ∅ = Ok (tt, Examples.released4, ∅).
Proof.
  split; [exact counter4_valid|].
  destruct (free_releases_then_does_nothing Examples.counter4 Examples.memory4)
    as [Hvalid _].
  destruct (Hvalid counter4_valid)
    as (b & this' & d' & Hp & Hfree & _ & -> & _ & _).
  injection Hp as <-. split.
  - rewrite Hfree. vm_compute in Hfree. by injection Hfree as <-.
  - apply (free_releases_then_does_nothing Examples.released4 ∅).
    reflexivity.
Defined.

(** ** The constructor *)

(** C7, as the code has it: the constructor stores what the allocator
    returns and tests nothing.  When the allocator reports that the request
    cannot be met by returning null, construction succeeds with a null
    [d_ptr]; an exception of the allocator itself reaches the caller as it
    is; a pointer to fresh memory is stored with the cells the byte count
    [N * sizeof(size_t)] (modulo 2^64) pays for. *)
Theorem construct_stores_what_the_allocator_returns q n o d :
  match o with
  | malloc_throws e => construct q n o d = Throw e
  | malloc_returns nullptr _ =>
      construct q n o d = Ok ({| queue := q; N := n; d_ptr := nullptr |}, d)
  | malloc_returns (usm b) _ =>
      exists cells,
        construct q n o d
        = Ok ({| queue := q; N := n; d_ptr := usm b |}, <[b := cells]> d) /\
        Z.of_nat (length cells)
        = Z.max 0 (to_size_t (n * sizeof_size_t) / sizeof_size_t)
  end.
Proof.
  destruct o as [[|b] contents|e]; try done.
  eexists. split; [reflexivity|].
  rewrite length_fmap, length_seq. lia.
Qed.

(** C7 as stated fails: an allocation that cannot be met and is reported by
    a null pointer makes the constructor return normally. *)
Lemma construct_out_of_memory_returns :
  allocation_fails Examples.exhausted /\
  construct 1%positive 4 Examples.exhausted ∅
  = Ok (Examples.released4, ∅) /\
  ~ (forall q n o d, allocation_fails o -> exists e, construct q n o d = Throw e).
Proof.
  split; [exact I|]. split; [reflexivity|].
  intros H. destruct (H 1%positive 4 Examples.exhausted ∅ I) as [e He].
  discriminate He.
Qed.

(** ** Schedules *)

Lemma schedule_in_range n sched idx :
  schedule n sched -> idx ∈ sched -> 0 <= idx < n.
Proof.
  unfold schedule, work_items. intros Hs Hin. rewrite Hs in Hin.
  apply elem_of_seqZ in Hin. lia.
Qed.

Lemma schedule_covers n sched idx :
  schedule n sched -> 0 <= idx < n -> idx ∈ sched.
Proof.
  unfold schedule, work_items. intros Hs Hin. rewrite Hs.
  apply elem_of_seqZ. lia.
Qed.

Lemma schedule_Forall n sched :
  schedule n sched -> Forall (fun idx => 0 <= idx < n) sched.
Proof.
  intros Hs. apply Forall_forall. intros idx Hin.
  by apply (schedule_in_range n sched).
Qed.

Lemma schedule_NoDup n sched : schedule n sched -> NoDup sched.
Proof.
  unfold schedule, work_items. intros ->. apply NoDup_seqZ.
Qed.

Lemma schedule_empty sched : schedule 0 sched -> sched = [].
Proof.
  unfold schedule, work_items. rewrite seqZ_nil by lia.
  apply Permutation_nil_r.
Qed.

Lemma parallel_for_scheduled {S : Type} n sched (kernel : Z -> S -> res S) s :
  schedule n sched -> parallel_for n sched kernel s = run_items kernel sched s.
Proof. intros Hs. unfold parallel_for. by rewrite decide_True. Qed.

(** ** Arrays written position by position *)

Lemma write_all_cons f i positions a :
  write_all f (i :: positions) a
  = write_all f positions (<[Z.to_nat i := f i]> a).
Proof. reflexivity. Qed.

Lemma length_write_all f positions : forall a,
  length (write_all f positions a) = length a.
Proof.
  induction positions as [|i positions IH]; intros a; [done|].
  rewrite write_all_cons, IH. apply length_insert.
Qed.

Lemma write_all_elsewhere f positions j : forall a,
  Forall (fun i => 0 <= i) positions -> Z.of_nat j ∉ positions ->
  write_all f positions a !! j = a !! j.
Proof.
  induction positions as [|i positions IH]; intros a Hpos Hj; [done|].
  apply Forall_cons in Hpos as [Hi Hpos].
  apply not_elem_of_cons in Hj as [Hne Hj].
  rewrite write_all_cons, IH by done.
  apply list_lookup_insert_ne. lia.
Qed.

Lemma write_all_written f positions j : forall a,
  Forall (fun i => 0 <= i) positions -> Z.of_nat j ∈ positions ->
  (j < length a)%nat ->
  write_all f positions a !! j = Some (f (Z.of_nat j)).
Proof.
  induction positions as [|i positions IH]; intros a Hpos Hj Hlen.
  - by apply elem_of_nil in Hj.
  - apply Forall_cons in Hpos as [Hi Hpos]. rewrite write_all_cons.
    destruct (decide (Z.of_nat j ∈ positions)) as [Hin|Hnotin].
    + apply IH; [done..|]. by rewrite length_insert.
    + apply elem_of_cons in Hj as [<-|Hj]; [|done].
      rewrite write_all_elsewhere by done.
      rewrite Nat2Z.id. by apply list_lookup_insert_eq.
Qed.

(** Along a schedule every position is written: the result does not depend
    on the order. *)
Lemma write_all_schedule f n sched a :
  schedule n sched -> length a = Z.to_nat n ->
  write_all f sched a = f <$> work_items n.
Proof.
  intros Hs Hlen. apply list_eq_same_length with (length a).
  - unfold work_items. by rewrite length_fmap, length_seqZ.
  - apply length_write_all.
  - intros j x y Hj Hx Hy.
    assert (0 <= Z.of_nat j < n) as Hjn by lia.
    rewrite write_all_written in Hx.
    + unfold work_items in Hy. rewrite list_lookup_fmap in Hy.
      rewrite lookup_seqZ_lt in Hy by lia. simpl in Hy.
      rewrite Z.add_0_l in Hy. congruence.
    + eapply Forall_impl; [by apply schedule_Forall|]. simpl. lia.
    + by apply (schedule_covers n).
    + done.
Qed.

Lemma zeros_work_items n : (fun _ => 0) <$> work_items n = replicate (Z.to_nat n) 0.
Proof.
  unfold work_items, seqZ. rewrite <- list_fmap_compose.
  generalize 0%nat as start.
  induction (Z.to_nat n) as [|k IH]; intros start; [done|].
  simpl. by rewrite IH.
Qed.

Lemma cells_work_items (cells : list Z) :
  cell cells <$> work_items (Z.of_nat (length cells)) = cells.
Proof.
  apply list_eq_same_length with (length cells); [done| |].
  - unfold work_items. rewrite length_fmap, length_seqZ. lia.
  - intros j x y Hj Hx Hy. unfold work_items in Hx.
    rewrite list_lookup_fmap, lookup_seqZ_lt in Hx by lia. simpl in Hx.
    unfold cell in Hx. rewrite decide_True in Hx by lia.
    rewrite Z.add_0_l, Nat2Z.id, Hy in Hx. simpl in Hx.
    congruence.
Qed.

(** ** pre_kernel *)

Lemma run_items_store b v sched : forall (d : device) cells,
  d !! b = Some cells ->
  Forall (fun idx => 0 <= idx < Z.of_nat (length cells)) sched ->
  run_items (fun idx => store (usm b) idx v) sched d
  = Ok (<[b := write_all (fun _ => v) sched cells]> d).
Proof.
  induction sched as [|idx sched IH]; intros d cells Hlive Hrange.
  - simpl. by rewrite insert_id.
  - apply Forall_cons in Hrange as [Hidx Hrange]. cbn [run_items].
    rewrite (store_inside d b cells Hlive) by done. cbn [bind].
    rewrite (IH _ (<[Z.to_nat idx := v]> cells)).
    + by rewrite insert_insert_eq.
    + apply lookup_insert_eq.
    + by rewrite length_insert.
Qed.

Lemma pre_kernel_spec this d b cells sched :
  d_ptr this = usm b -> d !! b = Some cells ->
  Z.of_nat (length cells) = N this ->
  schedule (N this) sched ->
  pre_kernel sched this d
  = Ok (tt, this, <[b := replicate (Z.to_nat (N this)) 0]> d).
Proof.
  intros Hp Hlive Hlen Hs. unfold pre_kernel.
  rewrite parallel_for_scheduled, Hp by done.
  rewrite (run_items_store b 0 sched d cells Hlive).
  - cbn [bind]. rewrite (write_all_schedule _ (N this)) by (done || lia).
    by rewrite zeros_work_items.
  - rewrite Hlen. by apply schedule_Forall.
Qed.

Lemma valid_insert this (d : device) b cells :
  d_ptr this = usm b -> Z.of_nat (length cells) = N this ->
  valid this (<[b := cells]> d).
Proof.
  intros Hp Hlen. exists b, cells. split; [done|].
  split; [apply lookup_insert_eq|done].
Qed.

(** C4: on an instance that has not been released, [pre_kernel] returns and
    leaves every one of the [N] cells zero, whatever the order in which its
    [N] work items run; run again right away it returns with the same
    memory. *)
Theorem pre_kernel_zero_fills this d sched :
  valid this d ->
  schedule (N this) sched ->
  exists b d',
    d_ptr this = usm b /\
    pre_kernel sched this d = Ok (tt, this, d') /\
    d' = <[b := replicate (Z.to_nat (N this)) 0]> d /\
    valid this d' /\
    (forall i, 0 <= i < N this -> load (d_ptr this) i d' = Ok 0) /\
    (forall sched', schedule (N this) sched' ->
       pre_kernel sched' this d' = Ok (tt, this, d')).
Proof.
  intros (b & cells & Hp & Hlive & Hlen) Hs.
  assert (0 <= N this) as Hn by lia.
  exists b, (<[b := replicate (Z.to_nat (N this)) 0]> d).
  split; [done|]. split; [by apply (pre_kernel_spec this d b cells)|].
  split; [done|]. split; [|split].
  - apply valid_insert; [done|]. rewrite length_replicate. lia.
  - intros i Hi. rewrite Hp.
    apply (load_inside _ b (replicate (Z.to_nat (N this)) 0));
      [apply lookup_insert_eq|lia|].
    apply lookup_replicate_2. lia.
  - intros sched' Hs'.
    rewrite (pre_kernel_spec this _ b (replicate (Z.to_nat (N this)) 0));
      [|done|apply lookup_insert_eq|rewrite length_replicate; lia|done].
    by rewrite insert_insert_eq.
Qed.

Lemma pre_kernel_zero_fills_witness :
  valid Examples.counter4 Examples.memory4 /\
  schedule (N Examples.counter4) [2; 0; 3; 1] /\
  schedule (N Examples.counter4) [3; 2; 1; 0] /\
  pre_kernel [2; 0; 3; 1] Examples.counter4 Examples.memory4
  = Ok (tt, Examples.counter4, Examples.zeroed4) /\
  pre_kernel [3; 2; 1; 0] Examples.counter4 Examples.zeroed4
  = Ok (tt, Examples.counter4, Examples.zeroed4).
Proof.
  assert (schedule (N Examples.counter4) [2; 0; 3; 1]) as Hs1
    by decide_schedule.
  assert (schedule (N Examples.counter4) [3; 2; 1; 0]) as Hs2
    by decide_schedule.
  split; [exact counter4_valid|]. split; [exact Hs1|]. split; [exact Hs2|].
  destruct (pre_kernel_zero_fills Examples.counter4 Examples.memory4
              [2; 0; 3; 1] counter4_valid Hs1)
    as (b & d' & Hp & Hrun & Hd' & _ & _ & Hagain).
  injection Hp as <-.
  assert (d' = Examples.zeroed4) as ->.
  { rewrite Hd'. reflexivity. }
  split; [exact Hrun|]. by apply Hagain.
Defined.

(** ** get_counts *)

Lemma run_items_copy_cell (d : device) b cells sched : forall a,
  d !! b = Some cells ->
  Forall (fun idx => 0 <= idx < Z.of_nat (length cells)) sched ->
  length a = length cells ->
  run_items (copy_cell (usm b)) sched (d, a)
  = Ok (d, write_all (cell cells) sched a).
Proof.
  intros a Hlive. revert a.
  induction sched as [|idx sched IH]; intros a Hrange Hlen; [done|].
  apply Forall_cons in Hrange as [Hidx Hrange]. cbn [run_items copy_cell].
  destruct (cell_in_range cells _ idx eq_refl Hidx) as [v Hv].
  rewrite (load_inside d b cells Hlive idx v) by (lia || done). cbn [bind].
  unfold accessor_write. rewrite decide_True by lia. cbn [bind].
  rewrite IH; [|done|by rewrite length_insert].
  rewrite write_all_cons. replace (cell cells idx) with v; [done|].
  unfold cell. rewrite decide_True by lia. by rewrite Hv.
Qed.

Lemma get_counts_spec this d b cells sched :
  d_ptr this = usm b -> d !! b = Some cells ->
  Z.of_nat (length cells) = N this ->
  schedule (N this) sched ->
  get_counts sched this d = Ok (cells, this, d).
Proof.
  intros Hp Hlive Hlen Hs. unfold get_counts.
  rewrite parallel_for_scheduled, Hp by done.
  rewrite (run_items_copy_cell d b cells sched).
  - cbn [bind]. rewrite (write_all_schedule _ (N this)).
    + by rewrite <- Hlen, cells_work_items.
    + done.
    + by rewrite length_replicate.
  - done.
  - rewrite Hlen. by apply schedule_Forall.
  - rewrite length_replicate. lia.
Qed.

(** C5: on an instance that has not been released, [get_counts] returns a
    sequence of length exactly [N] whose element at position [i] is the
    value of device cell [i], for every [i] in [0, N) and whatever the order
    in which the copying work items run; device memory and the object are
    as before. *)
Theorem get_counts_snapshot this d sched :
  valid this d ->
  schedule (N this) sched ->
  exists counts,
    get_counts sched this d = Ok (counts, this, d) /\
    Z.of_nat (length counts) = N this /\
    cells_of this d = Some counts /\
    (forall i, 0 <= i < N this ->
       exists v, counts !! Z.to_nat i = Some v /\ load (d_ptr this) i d = Ok v).
Proof.
  intros (b & cells & Hp & Hlive & Hlen) Hs. exists cells.
  split; [by apply (get_counts_spec this d b cells)|]. split; [done|].
  split; [unfold cells_of; by rewrite Hp|].
  intros i Hi. destruct (cell_in_range cells _ i Hlen Hi) as [v Hv].
  exists v. split; [done|]. rewrite Hp.
  apply (load_inside d b cells Hlive); [lia|done].
Qed.

Lemma get_counts_snapshot_witness :
  valid Examples.counter4 Examples.memory4 /\
  schedule (N Examples.counter4) [2; 0; 3; 1] /\
  get_counts [2; 0; 3; 1] Examples.counter4 Examples.memory4
  = Ok ([3; 0; 7; 1], Examples.counter4, Examples.memory4).
Proof.
  assert (schedule (N Examples.counter4) [2; 0; 3; 1]) as Hs
    by decide_schedule.
  split; [exact counter4_valid|]. split; [exact Hs|].
  destruct (get_counts_snapshot Examples.counter4 Examples.memory4
              [2; 0; 3; 1] counter4_valid Hs)
    as (counts & Hrun & _ & Hcells & _).
  vm_compute in Hcells. injection Hcells as <-. exact Hrun.
Defined.

(** ** What the methods leave alone *)

Lemma bind_Ok {A B : Type} (m : res A) (k : A -> res B) r :
  bind m k = Ok r -> exists a, m = Ok a /\ k a = Ok r.
Proof. destruct m as [a| |]; [eauto|done..]. Qed.

(** A property of the state that every step of a kernel keeps is kept by
    the whole dispatch. *)
Lemma run_items_preserves {S : Type} (kernel : Z -> S -> res S)
  (R : S -> S -> Prop) :
  (forall s, R s s) ->
  (forall s1 s2 s3, R s1 s2 -> R s2 s3 -> R s1 s3) ->
  (forall idx s s', kernel idx s = Ok s' -> R s s') ->
  forall sched s s', run_items kernel sched s = Ok s' -> R s s'.
Proof.
  intros Hrefl Htrans Hstep.
  induction sched as [|idx sched IH]; intros s s' Hrun.
  - injection Hrun as <-. apply Hrefl.
  - cbn [run_items] in Hrun.
    apply bind_Ok in Hrun as (s1 & Hk & Hrest).
    eapply Htrans; [by eapply Hstep|by apply IH].
Qed.

Lemma parallel_for_Ok {S : Type} n sched (kernel : Z -> S -> res S) s s' :
  parallel_for n sched kernel s = Ok s' ->
  run_items kernel sched s = Ok s'.
Proof. unfold parallel_for. by destruct (decide (schedule n sched)). Qed.

Lemma same_outside_refl p d : same_outside p d d.
Proof. by intros b' _. Qed.

Lemma same_outside_trans p d1 d2 d3 :
  same_outside p d1 d2 -> same_outside p d2 d3 -> same_outside p d1 d3.
Proof. intros H12 H23 b' Hb'. by rewrite H23, H12. Qed.

Lemma store_same_outside p i v d d' :
  store p i v d = Ok d' -> same_outside p d d'.
Proof.
  unfold store. destruct p as [|b]; [done|].
  destruct (d !! b) as [cells|]; [|done].
  destruct (decide _); [|done]. intros [= <-] b' Hb'.
  apply lookup_insert_ne. congruence.
Qed.

Lemma fetch_add_same_outside p i v d old d' :
  fetch_add p i v d = Ok (old, d') -> same_outside p d d'.
Proof.
  unfold fetch_add. intros H.
  apply bind_Ok in H as (old' & _ & H).
  apply bind_Ok in H as (d1 & Hstore & [= _ <-]).
  by apply (store_same_outside p i (to_size_t (old' + v))).
Qed.

Lemma sycl_free_same_outside p d d' :
  Sycl.free p d = Ok d' -> same_outside p d d'.
Proof.
  unfold Sycl.free. destruct p as [|b]; [by intros [= <-] b' _|].
  destruct (d !! b); [|done]. intros [= <-] b' Hb'.
  apply lookup_delete_ne. congruence.
Qed.

Lemma copy_cell_same_device p idx d a d' a' :
  copy_cell p idx (d, a) = Ok (d', a') -> d = d'.
Proof.
  unfold copy_cell. intros H.
  apply bind_Ok in H as (v & _ & H).
  by apply bind_Ok in H as (a1 & _ & [= <- _]).
Qed.

(** C10: [pre_kernel], [get_counts] and [get_add_output] return the object
    with [queue], [N] and [d_ptr] as they were; [pre_kernel] and
    [get_add_output] change device memory in the allocation at [d_ptr] only
    and [get_counts] changes none.  [free] keeps [queue] and [N], leaves
    [d_ptr] null, and touches no allocation but the one at [d_ptr]. *)
Theorem only_free_changes_a_field :
  (forall sched this d r this' d',
     pre_kernel sched this d = Ok (r, this', d') ->
     this' = this /\ same_outside (d_ptr this) d d') /\
  (forall sched this d r this' d',
     get_counts sched this d = Ok (r, this', d') ->
     this' = this /\ d' = d) /\
  (forall index this d r this' d',
     get_add_output index this d = Ok (r, this', d') ->
     this' = this /\ same_outside (d_ptr this) d d') /\
  (forall this d r this' d',
     Counter.free this d = Ok (r, this', d') ->
     queue this' = queue this /\ N this' = N this /\ d_ptr this' = nullptr /\
     same_outside (d_ptr this) d d').
Proof.
  split; [|split; [|split]].
  - intros sched this d r this' d' H. unfold pre_kernel in H.
    apply bind_Ok in H as (d1 & Hrun & [= _ <- <-]). split; [done|].
    apply parallel_for_Ok in Hrun. revert Hrun.
    apply (run_items_preserves _ (same_outside (d_ptr this)));
      eauto using same_outside_refl, same_outside_trans, store_same_outside.
  - intros sched this d r this' d' H. unfold get_counts in H.
    apply bind_Ok in H as ([d1 a1] & Hrun & [= _ <- <-]). split; [done|].
    apply parallel_for_Ok in Hrun. symmetry.
    change (fst (d, replicate (Z.to_nat (N this)) 0) = fst (d1, a1)).
    revert Hrun.
    apply (run_items_preserves _ (fun s s' => fst s = fst s')).
    + done.
    + intros s1 s2 s3. congruence.
    + intros idx [d2 a2] [d3 a3] Hstep. simpl.
      by apply (copy_cell_same_device (d_ptr this) idx d2 a2 d3 a3).
  - intros index this d r this' d' H. unfold get_add_output in H.
    apply bind_Ok in H as ([old d1] & Hfa & [= _ <- <-]). split; [done|].
    by apply (fetch_add_same_outside _ index 1 d old).
  - intros this d r this' d' H. unfold Counter.free in H.
    destruct (d_ptr this) as [|b] eqn:Hp.
    + injection H as _ <- <-. by repeat split.
    + apply bind_Ok in H as (d1 & Hfree & [= _ <- <-]).
      repeat split. by apply sycl_free_same_outside.
Qed.

Lemma only_free_changes_a_field_witness :
  pre_kernel [2; 0; 3; 1] Examples.counter4 Examples.memory4
  = Ok (tt, Examples.counter4, Examples.zeroed4) /\
  Counter.free Examples.counter4 Examples.memory4
  = Ok (tt, Examples.released4, ∅) /\
  Examples.counter4 = Examples.counter4 /\
  queue Examples.released4 = queue Examples.counter4 /\
  N Examples.released4 = N Examples.counter4 /\
  d_ptr Examples.released4 = nullptr.
Proof.
  assert (pre_kernel [2; 0; 3; 1] Examples.counter4 Examples.memory4
          = Ok (tt, Examples.counter4, Examples.zeroed4)) as Hzero
    by (vm_compute; reflexivity).
  assert (Counter.free Examples.counter4 Examples.memory4
          = Ok (tt, Examples.released4, ∅)) as Hfree
    by (vm_compute; reflexivity).
  destruct only_free_changes_a_field as (Hpre & _ & _ & Hfr).
  split; [exact Hzero|]. split; [exact Hfree|].
  split; [exact (proj1 (Hpre _ _ _ _ _ _ Hzero))|].
  destruct (Hfr _ _ _ _ _ Hfree) as (Hq & Hn & Hp & _).
  by repeat split.
Defined.

(** ** No counters at all *)

(** C8: with [N = 0], and an allocator that returns (a pointer or null),
    construction returns an instance, [pre_kernel] returns with memory
    untouched, [get_counts] returns the empty sequence with memory
    untouched, and [free] returns leaving [d_ptr] null. *)
Theorem zero_counters_lifecycle q o d sched_zero sched_read :
  (forall e, o <> malloc_throws e) ->
  schedule 0 sched_zero ->
  schedule 0 sched_read ->
  exists this d1 this' d2,
    construct q 0 o d = Ok (this, d1) /\
    N this = 0 /\
    pre_kernel sched_zero this d1 = Ok (tt, this, d1) /\
    get_counts sched_read this d1 = Ok ([], this, d1) /\
    Counter.free this d1 = Ok (tt, this', d2) /\
    d_ptr this' = nullptr.
Proof.
  intros Hreturns Hz%schedule_empty Hr%schedule_empty. subst.
  assert (schedule 0 []) as Hnone by (by unfold schedule, work_items).
  destruct o as [[|b] contents|e]; [| |by destruct (Hreturns e)].
  - exists {| queue := q; N := 0; d_ptr := nullptr |}, d.
    exists {| queue := q; N := 0; d_ptr := nullptr |}, d.
    unfold pre_kernel, get_counts. cbn [N d_ptr].
    rewrite !parallel_for_scheduled by done. by repeat split.
  - exists {| queue := q; N := 0; d_ptr := usm b |}, (<[b := []]> d).
    exists {| queue := q; N := 0; d_ptr := nullptr |},
      (delete b (<[b := []]> d)).
    unfold pre_kernel, get_counts. cbn [N d_ptr].
    rewrite !parallel_for_scheduled by done.
    repeat split; try done.
    exact (free_valid {| queue := q; N := 0; d_ptr := usm b |}
             (<[b := []]> d) b [] eq_refl (lookup_insert_eq d b [])).
Qed.

Lemma zero_counters_lifecycle_witness :
  (forall e, Examples.sevens <> malloc_throws e) /\
  schedule 0 [] /\
  exists this d1 this' d2,
    construct 1%positive 0 Examples.sevens ∅ = Ok (this, d1) /\
    get_counts [] this d1 = Ok ([], this, d1) /\
    Counter.free this d1 = Ok (tt, this', d2).
Proof.
  assert (forall e, Examples.sevens <> malloc_throws e) as Hret by done.
  assert (schedule 0 []) as Hs by decide_schedule.
  split; [exact Hret|]. split; [exact Hs|].
  destruct (zero_counters_lifecycle 1%positive Examples.sevens ∅ [] []
              Hret Hs Hs)
    as (this & d1 & this' & d2 & Hc & _ & _ & Hg & Hf & _).
  by exists this, d1, this', d2.
Defined.

(** ** Cells read through [cell] *)

Lemma cell_lookup (cells : list Z) i v :
  0 <= i -> cells !! Z.to_nat i = Some v -> cell cells i = v.
Proof. intros Hi Hv. unfold cell. rewrite decide_True by done. by rewrite Hv. Qed.

Lemma cell_insert_eq (cells : list Z) t v :
  0 <= t < Z.of_nat (length cells) -> cell (<[Z.to_nat t := v]> cells) t = v.
Proof.
  intros Ht. apply cell_lookup; [lia|].
  apply list_lookup_insert_eq. lia.
Qed.

Lemma cell_insert_ne (cells : list Z) t v i :
  0 <= t -> i <> t -> cell (<[Z.to_nat t := v]> cells) i = cell cells i.
Proof.
  intros Ht Hne. unfold cell. destruct (decide (0 <= i)); [|done].
  rewrite list_lookup_insert_ne; [done|lia].
Qed.

Lemma cell_zeros n i : cell (replicate n 0) i = 0.
Proof.
  unfold cell. destruct (decide (0 <= i)); [|done].
  destruct (replicate n 0 !! Z.to_nat i) as [v|] eqn:Hv; [|done].
  by apply lookup_replicate_1 in Hv as [-> _].
Qed.

Lemma to_size_t_is_size_t z : is_size_t (to_size_t z).
Proof. unfold is_size_t, to_size_t, size_t_modulus. apply Z.mod_pos_bound. lia. Qed.

Lemma to_size_t_small z : is_size_t z -> to_size_t z = z.
Proof. unfold is_size_t, to_size_t. intros Hz. by apply Z.mod_small. Qed.

Lemma to_size_t_add_l a b : to_size_t (to_size_t a + b) = to_size_t (a + b).
Proof. unfold to_size_t. apply Zplus_mod_idemp_l. Qed.

Lemma is_size_t_cell cells i : Forall is_size_t cells -> is_size_t (cell cells i).
Proof.
  intros Hall. unfold cell.
  destruct (decide (0 <= i)); [|by vm_compute].
  destruct (cells !! Z.to_nat i) as [v|] eqn:Hv; [|by vm_compute].
  by apply (Forall_lookup_1 _ _ _ _ Hall Hv).
Qed.

(** ** The cells and the returned values after a list of calls *)

Lemma record_all_cons target idx sched s :
  record_all target (idx :: sched) s
  = record_all target sched (record_step target s idx).
Proof. reflexivity. Qed.

Lemma callers_cons target i idx items :
  callers target i (idx :: items)
  = if decide (target idx = i) then idx :: callers target i items
    else callers target i items.
Proof. unfold callers. by rewrite filter_cons. Qed.

Lemma length_record_all target sched : forall s,
  length (record_all target sched s).1 = length s.1.
Proof.
  induction sched as [|idx sched IH]; intros s; [done|].
  rewrite record_all_cons, IH. apply length_insert.
Qed.

Lemma record_all_cells target i sched : forall cells returned,
  Forall is_size_t cells ->
  Forall (fun idx => 0 <= target idx < Z.of_nat (length cells)) sched ->
  cell (record_all target sched (cells, returned)).1 i
  = to_size_t (cell cells i + Z.of_nat (hits target i sched)).
Proof.
  induction sched as [|idx sched IH]; intros cells returned Hsz Hrange.
  - unfold hits. simpl. rewrite Z.add_0_r.
    symmetry. by apply to_size_t_small, is_size_t_cell.
  - apply Forall_cons in Hrange as [Hidx Hrange].
    rewrite record_all_cons. unfold record_step. cbn [fst snd].
    rewrite IH.
    + unfold hits. rewrite callers_cons.
      destruct (decide (target idx = i)) as [<-|Hne].
      * rewrite cell_insert_eq by done. rewrite to_size_t_add_l.
        f_equal. cbn [length]. lia.
      * by rewrite cell_insert_ne by (lia || done).
    + apply Forall_insert; [done|apply to_size_t_is_size_t].
    + by rewrite length_insert.
Qed.

Lemma record_all_elsewhere target sched idx : forall s,
  idx ∉ sched -> (record_all target sched s).2 !! idx = s.2 !! idx.
Proof.
  induction sched as [|idx' sched IH]; intros s Hnotin; [done|].
  apply not_elem_of_cons in Hnotin as [Hne Hnotin].
  rewrite record_all_cons, IH by done.
  unfold record_step. cbn [snd]. by apply lookup_insert_ne.
Qed.

Lemma shifted_positions (c : Z) (m : nat) :
  (fun k => Some (to_size_t (to_size_t (c + 1) + k))) <$> seqZ 0 (Z.of_nat m)
  = (fun k => Some (to_size_t (c + k))) <$> seqZ 1 (Z.of_nat m).
Proof.
  rewrite <- (fmap_add_seqZ 1 0), <- list_fmap_compose.
  apply list_fmap_ext. intros _ k _. simpl.
  rewrite to_size_t_add_l. do 2 f_equal. lia.
Qed.

Lemma record_all_returned target i sched : forall cells returned,
  NoDup sched ->
  Forall is_size_t cells ->
  Forall (fun idx => 0 <= target idx < Z.of_nat (length cells)) sched ->
  (fun idx => (record_all target sched (cells, returned)).2 !! idx)
    <$> callers target i sched
  = (fun k => Some (to_size_t (cell cells i + k)))
      <$> seqZ 0 (Z.of_nat (hits target i sched)).
Proof.
  induction sched as [|idx sched IH]; intros cells returned Hnd Hsz Hrange;
    [done|].
  apply NoDup_cons in Hnd as [Hfirst Hnd].
  apply Forall_cons in Hrange as [Hidx Hrange].
  assert (Forall is_size_t
            (<[Z.to_nat (target idx) := to_size_t (cell cells (target idx) + 1)]>
               cells)) as Hsz'
    by (apply Forall_insert; [done|apply to_size_t_is_size_t]).
  rewrite record_all_cons. unfold hits. rewrite callers_cons.
  unfold record_step. cbn [fst snd].
  destruct (decide (target idx = i)) as [<-|Hne].
  - cbn [length]. rewrite seqZ_cons by lia. rewrite !fmap_cons.
    f_equal.
    + rewrite record_all_elsewhere by done. cbn [snd].
      rewrite lookup_insert_eq, Z.add_0_r.
      f_equal. symmetry. by apply to_size_t_small, is_size_t_cell.
    + rewrite IH by (done || by rewrite length_insert).
      rewrite cell_insert_eq by done. fold (hits target (target idx) sched).
      replace (Z.pred (Z.of_nat (S (hits target (target idx) sched))))
        with (Z.of_nat (hits target (target idx) sched)) by lia.
      apply shifted_positions.
  - rewrite IH by (done || by rewrite length_insert).
    by rewrite cell_insert_ne by (lia || done).
Qed.

(** ** A dispatch of get_add_output calls *)

Lemma get_add_output_spec this (d : device) b cells index :
  d_ptr this = usm b -> d !! b = Some cells ->
  0 <= index < Z.of_nat (length cells) ->
  get_add_output index this d
  = Ok (cell cells index, this,
        <[b := <[Z.to_nat index := to_size_t (cell cells index + 1)]> cells]> d).
Proof.
  intros Hp Hlive Hi.
  destruct (cell_in_range cells _ index eq_refl Hi) as [old Hold].
  rewrite (cell_lookup cells index old) by (lia || done).
  unfold get_add_output. rewrite Hp.
  by rewrite (fetch_add_inside d b cells Hlive index 1 old) by (lia || done).
Qed.

Lemma run_items_position this b target sched : forall (d : device) cells returned,
  d_ptr this = usm b -> d !! b = Some cells ->
  Forall (fun idx => 0 <= target idx < Z.of_nat (length cells)) sched ->
  run_items (position_kernel this target) sched (d, returned)
  = Ok (<[b := (record_all target sched (cells, returned)).1]> d,
        (record_all target sched (cells, returned)).2).
Proof.
  induction sched as [|idx sched IH]; intros d cells returned Hp Hlive Hrange.
  - simpl. by rewrite insert_id.
  - apply Forall_cons in Hrange as [Hidx Hrange].
    cbn [run_items]. unfold position_kernel at 1. cbn [fst snd].
    rewrite (get_add_output_spec this d b cells) by done. cbn [bind].
    rewrite (IH _ (<[Z.to_nat (target idx)
                     := to_size_t (cell cells (target idx) + 1)]> cells));
      [|done|apply lookup_insert_eq|by rewrite length_insert].
    by rewrite insert_insert_eq.
Qed.

(** Dropping the returned position does not change what happens to memory. *)
Lemma run_items_increment this count sched : forall (d : device) returned s',
  count <> 0 ->
  run_items (position_kernel this (driver_target count)) sched (d, returned)
  = Ok s' ->
  run_items (increment_kernel this count) sched d = Ok s'.1.
Proof.
  induction sched as [|idx sched IH]; intros d returned s' Hcount Hrun.
  - by injection Hrun as <-.
  - cbn [run_items] in *.
    apply bind_Ok in Hrun as ([d1 returned1] & Hstep & Hrest).
    unfold position_kernel in Hstep. cbn [fst snd] in Hstep.
    apply bind_Ok in Hstep as ([[index this'] d2] & Hcall & [= <- <-]).
    unfold increment_kernel at 1, size_t_rem.
    rewrite decide_False by done. cbn [bind].
    unfold driver_target in Hcall. rewrite Hcall. cbn [bind].
    by apply (IH d2 (<[idx := index]> returned)).
Qed.

Lemma hits_schedule target i n sched :
  schedule n sched -> hits target i sched = hits target i (work_items n).
Proof. unfold schedule, hits, callers. by intros ->. Qed.

Lemma hits_le target i items : (hits target i items <= length items)%nat.
Proof. unfold hits, callers. apply length_filter. Qed.

Lemma positions_in_range (k : nat) :
  Z.of_nat k <= size_t_modulus ->
  (fun j => Some (to_size_t (0 + j))) <$> seqZ 0 (Z.of_nat k)
  = Some <$> seqZ 0 (Z.of_nat k).
Proof.
  intros Hk. apply list_fmap_ext. intros _ j Hj%list_elem_of_lookup_2.
  apply elem_of_seqZ in Hj. f_equal. apply to_size_t_small.
  unfold is_size_t. lia.
Qed.

Lemma zeros_are_size_t n : Forall is_size_t (replicate n 0).
Proof. apply Forall_replicate. by vm_compute. Qed.

(** C2: start from a zero-filled buffer and let each of [n] work items call
    [get_add_output] once, work item [idx] on the index [target idx], in any
    order the runtime chooses.  The dispatch returns, and for every index
    [i] the values handed to the [k] work items that called on [i] are a
    permutation of [0 .. k-1]: no value is handed out twice and none is
    skipped. *)
Theorem returned_positions_are_a_permutation this d b n sched target :
  d_ptr this = usm b ->
  d !! b = Some (replicate (Z.to_nat (N this)) 0) ->
  is_size_t n ->
  schedule n sched ->
  (forall idx, 0 <= idx < n -> 0 <= target idx < N this) ->
  exists d' returned,
    parallel_for n sched (position_kernel this target) (d, ∅)
    = Ok (d', returned) /\
    forall i,
      (fun idx => returned !! idx) <$> callers target i (work_items n)
      ≡ₚ Some <$> seqZ 0 (Z.of_nat (hits target i (work_items n))) /\
      NoDup ((fun idx => returned !! idx) <$> callers target i (work_items n)).
Proof.
  intros Hp Hlive Hn Hs Htarget.
  set (zeros := replicate (Z.to_nat (N this)) 0) in *.
  assert (Forall (fun idx => 0 <= target idx < Z.of_nat (length zeros)) sched)
    as Hrange.
  { apply Forall_forall. intros idx Hin.
    apply (schedule_in_range n) in Hin; [|done].
    unfold zeros. rewrite length_replicate. specialize (Htarget idx Hin). lia. }
  eexists _, _. split.
  { rewrite parallel_for_scheduled by done.
    by apply (run_items_position this b target sched d zeros ∅). }
  intros i.
  assert ((fun idx => (record_all target sched (zeros, ∅)).2 !! idx)
            <$> callers target i (work_items n)
          ≡ₚ Some <$> seqZ 0 (Z.of_nat (hits target i (work_items n)))) as Hperm.
  { rewrite <- (hits_schedule target i n sched) by done.
    transitivity ((fun idx => (record_all target sched (zeros, ∅)).2 !! idx)
                    <$> callers target i sched).
    { apply fmap_Permutation. unfold callers. apply filter_Permutation.
      symmetry. exact Hs. }
    rewrite (record_all_returned target i sched zeros ∅);
      [|by apply (schedule_NoDup n)|apply zeros_are_size_t|done].
    unfold zeros. rewrite cell_zeros.
    rewrite positions_in_range; [done|].
    pose proof (hits_le target i sched) as Hle.
    assert (length sched = Z.to_nat n) as Hlen.
    { unfold schedule, work_items in Hs. by rewrite Hs, length_seqZ. }
    unfold is_size_t in Hn. lia. }
  split; [exact Hperm|].
  rewrite Hperm. apply (NoDup_fmap_2 Some), NoDup_seqZ.
Qed.

(** ** Counting the work items sent to a cell *)

Lemma callers_ext target1 target2 i items :
  (forall idx, idx ∈ items -> target1 idx = target2 idx) ->
  callers target1 i items = callers target2 i items.
Proof.
  induction items as [|idx items IH]; intros Hext; [done|].
  rewrite !callers_cons, IH, (Hext idx).
  - done.
  - apply elem_of_cons. by left.
  - intros idx' Hin. apply Hext. apply elem_of_cons. by right.
Qed.

Lemma quotient_unique a b q r :
  0 <= r < b /\ a = b * q + r -> a / b = q.
Proof. intros [Hr Ha]. symmetry. by apply (Z.div_unique a b q r); [left|]. Qed.

Lemma ceil_div_step count i w :
  0 < count -> 0 <= i < count -> 0 <= w ->
  ceil_div (w + 1 - i) count
  = ceil_div (w - i) count + (if decide (w mod count = i) then 1 else 0).
Proof.
  intros Hcount Hi Hw. unfold ceil_div.
  pose proof (Z.div_mod w count ltac:(lia)) as Hw_eq.
  pose proof (Z.mod_pos_bound w count Hcount) as Hr.
  set (q := w / count) in *. set (r := w mod count) in *.
  destruct (decide (r = i)) as [Heq|Hne].
  - rewrite (quotient_unique (- (w + 1 - i)) count (- q - 1) (count - 1))
      by lia.
    rewrite (quotient_unique (- (w - i)) count (- q) 0) by lia. lia.
  - destruct (decide (i < r)).
    + rewrite (quotient_unique (- (w + 1 - i)) count (- q - 1)
                 (count - (r - i) - 1)) by lia.
      rewrite (quotient_unique (- (w - i)) count (- q - 1) (count - (r - i)))
        by lia.
      lia.
    + rewrite (quotient_unique (- (w + 1 - i)) count (- q) (i - r - 1))
        by lia.
      rewrite (quotient_unique (- (w - i)) count (- q) (i - r)) by lia.
      lia.
Qed.

Lemma hits_mod count i (W : nat) :
  0 < count -> 0 <= i < count ->
  Z.of_nat (hits (fun idx => idx mod count) i (work_items (Z.of_nat W)))
  = ceil_div (Z.of_nat W - i) count.
Proof.
  intros Hcount Hi. induction W as [|W IH].
  - unfold ceil_div. change (Z.of_nat 0) with 0.
    rewrite (quotient_unique (- (0 - i)) count 0 i) by lia. reflexivity.
  - unfold work_items, hits, callers in *. rewrite seqZ_S, filter_app, length_app.
    rewrite Nat2Z.inj_add, IH.
    replace (Z.of_nat (S W) - i) with (Z.of_nat W + 1 - i) by lia.
    rewrite ceil_div_step by lia. f_equal.
    rewrite filter_cons, filter_nil, Z.add_0_l.
    by destruct (decide (Z.of_nat W mod count = i)).
Qed.

Lemma driver_target_small count idx :
  0 < count -> 0 <= idx -> idx mod count <= INT_MAX ->
  driver_target count idx = idx mod count.
Proof.
  intros Hcount Hidx Hint. unfold driver_target, size_t_to_int.
  unfold INT_MAX in Hint.
  pose proof (Z.mod_pos_bound idx count Hcount) as Hr.
  rewrite Z.mod_small; lia.
Qed.

Lemma hits_driver_target count W i :
  0 < count -> 0 <= W -> 0 <= i < count ->
  (forall idx, 0 <= idx < W -> idx mod count <= INT_MAX) ->
  Z.of_nat (hits (driver_target count) i (work_items W))
  = ceil_div (W - i) count.
Proof.
  intros Hcount HW Hi Hint. unfold hits.
  rewrite (callers_ext _ (fun idx => idx mod count)).
  - fold (hits (fun idx => idx mod count) i (work_items W)).
    rewrite <- (Z2Nat.id W) at 1 by done.
    rewrite hits_mod by done. by rewrite Z2Nat.id.
  - intros idx Hin. unfold work_items in Hin. apply elem_of_seqZ in Hin.
    apply driver_target_small; [done|lia|]. apply Hint. lia.
Qed.

(** ** The workload of the driver *)

Lemma lookup_cell (cells : list Z) i :
  0 <= i < Z.of_nat (length cells) ->
  cells !! Z.to_nat i = Some (cell cells i).
Proof.
  intros Hi. destruct (cell_in_range cells _ i eq_refl Hi) as [v Hv].
  rewrite Hv. f_equal. symmetry. apply cell_lookup; [lia|done].
Qed.

Lemma length_expected_counts count W :
  length (expected_counts count W) = Z.to_nat count.
Proof. unfold expected_counts, work_items. by rewrite length_fmap, length_seqZ. Qed.

Lemma workload_spec this (d : device) b count W sched :
  d_ptr this = usm b ->
  0 < count ->
  is_size_t W ->
  (forall idx, 0 <= idx < W -> idx mod count <= INT_MAX) ->
  schedule W sched ->
  parallel_for W sched (increment_kernel this count)
    (<[b := replicate (Z.to_nat count) 0]> d)
  = Ok (<[b := expected_counts count W]> d).
Proof.
  intros Hp Hcount HW Hint Hs. unfold is_size_t in HW.
  set (zeros := replicate (Z.to_nat count) 0).
  assert (length zeros = Z.to_nat count) as Hzlen
    by (unfold zeros; apply length_replicate).
  assert (Forall (fun idx =>
            0 <= driver_target count idx < Z.of_nat (length zeros)) sched)
    as Hrange.
  { apply Forall_forall. intros idx Hin.
    apply (schedule_in_range W) in Hin; [|done].
    rewrite driver_target_small by (lia || by apply Hint).
    pose proof (Z.mod_pos_bound idx count Hcount). lia. }
  rewrite parallel_for_scheduled by done.
  pose proof (run_items_position this b (driver_target count) sched
                (<[b := zeros]> d) zeros ∅ Hp (lookup_insert_eq d b zeros)
                Hrange) as Hrun.
  apply run_items_increment in Hrun; [|lia].
  rewrite Hrun. cbn [fst]. rewrite insert_insert_eq. do 2 f_equal.
  apply list_eq_same_length with (Z.to_nat count).
  - apply length_expected_counts.
  - by rewrite length_record_all.
  - intros j x y Hj Hx Hy.
    unfold expected_counts, work_items in Hy.
    rewrite list_lookup_fmap, lookup_seqZ_lt in Hy by lia.
    injection Hy as <-. rewrite Z.add_0_l.
    rewrite <- (Nat2Z.id j) in Hx. apply cell_lookup in Hx; [|lia].
    rewrite <- Hx, record_all_cells by (done || apply zeros_are_size_t).
    unfold zeros. rewrite cell_zeros, Z.add_0_l.
    rewrite (hits_schedule _ _ W) by done.
    rewrite hits_driver_target by (done || lia).
    apply to_size_t_small.
    rewrite <- (hits_driver_target count W (Z.of_nat j)) by (done || lia).
    pose proof (hits_le (driver_target count) (Z.of_nat j) (work_items W))
      as Hle.
    unfold work_items in Hle at 2. rewrite length_seqZ in Hle.
    unfold is_size_t. lia.
Qed.

Lemma driver_spec count W name q b contents ss (d : device) :
  0 < count ->
  count * sizeof_size_t < size_t_modulus ->
  is_size_t W ->
  (forall idx, 0 <= idx < W -> idx mod count <= INT_MAX) ->
  d !! b = None ->
  schedule count (sched_zero ss) ->
  schedule W (sched_work ss) ->
  schedule count (sched_read ss) ->
  driver count W name q (malloc_returns (usm b) contents) ss d
  = Ok (0, ("Using " +:+ name)%string :: print_counts (expected_counts count W),
        d).
Proof.
  intros Hcount Hbytes HW Hint Hfresh Hsz Hsw Hsr.
  unfold driver, construct, malloc_device.
  rewrite to_size_t_small by (unfold is_size_t, sizeof_size_t in *; lia).
  rewrite Z.div_mul by done. cbn [bind].
  set (cells0 := (fun k => to_size_t (contents k)) <$> seq 0 (Z.to_nat count)).
  set (this := {| queue := q; N := count; d_ptr := usm b |}).
  assert (Z.of_nat (length cells0) = N this) as Hlen0.
  { unfold cells0. rewrite length_fmap, length_seq. cbn [N this]. lia. }
  rewrite (pre_kernel_spec this (<[b := cells0]> d) b cells0 (sched_zero ss)
             eq_refl (lookup_insert_eq d b cells0) Hlen0 Hsz).
  cbn [bind]. rewrite insert_insert_eq. cbn [N this].
  rewrite (workload_spec this d b count W (sched_work ss) eq_refl)
    by done.
  cbn [bind].
  rewrite (get_counts_spec this _ b (expected_counts count W) (sched_read ss)
             eq_refl (lookup_insert_eq d b _)).
  - cbn [bind].
    rewrite (free_valid this _ b (expected_counts count W) eq_refl
               (lookup_insert_eq d b _)).
    cbn [bind]. by rewrite delete_insert_id.
  - rewrite length_expected_counts. cbn [N this]. lia.
  - done.
Qed.

(** C3, as the code has it: on an instance that has not been released,
    with [count = N > 0] counters, zero-fill followed by a workload of [W] work items in which
    work item [j] calls [get_add_output(j % count)] returns, in whatever
    order the work items of either dispatch run, and leaves
    [ceil ((W - i) / count)] in cell [i] for every [i] in [0, count).  [W] is
    a [size_t] and the argument of each call fits the [int] parameter.
    The driver itself, with four counters and 1024 work items, returns 0,
    prints the device banner and then four lines reading 256, and leaves
    device memory as it found it. *)
Theorem workload_counts :
  (forall this (d : device) count W sched_z sched_w,
     valid this d ->
     N this = count ->
     0 < count ->
     is_size_t W ->
     (forall idx, 0 <= idx < W -> idx mod count <= INT_MAX) ->
     schedule count sched_z ->
     schedule W sched_w ->
     exists d1 d2 cells,
       pre_kernel sched_z this d = Ok (tt, this, d1) /\
       parallel_for W sched_w (increment_kernel this count) d1 = Ok d2 /\
       cells_of this d2 = Some cells /\
       Z.of_nat (length cells) = count /\
       forall i, 0 <= i < count ->
         cells !! Z.to_nat i = Some (ceil_div (W - i) count)) /\
  (forall name q b contents ss (d : device),
     d !! b = None ->
     schedule 4 (sched_zero ss) ->
     schedule 1024 (sched_work ss) ->
     schedule 4 (sched_read ss) ->
     main name q (malloc_returns (usm b) contents) ss d
     = Ok (0, [("Using " +:+ name)%string; "256"; "256"; "256"; "256"]%string,
           d)).
Proof.
  split.
  - intros this d count W sched_z sched_w (b & cells0 & Hp & Hlive & Hlen)
      HN Hcount HW Hint Hsz Hsw.
    exists (<[b := replicate (Z.to_nat count) 0]> d),
      (<[b := expected_counts count W]> d), (expected_counts count W).
    split; [|split; [|split; [|split]]].
    + rewrite <- HN in *. by apply (pre_kernel_spec this d b cells0).
    + by apply workload_spec.
    + unfold cells_of. rewrite Hp. apply lookup_insert_eq.
    + rewrite length_expected_counts. lia.
    + intros i Hi. unfold expected_counts, work_items.
      rewrite list_lookup_fmap, lookup_seqZ_lt by lia. simpl.
      do 3 f_equal. lia.
  - intros name q b contents ss d Hfresh Hsz Hsw Hsr. unfold main.
    rewrite (driver_spec 4 1024 name q b contents ss d); try done.
    intros idx Hidx. pose proof (Z.mod_pos_bound idx 4). unfold INT_MAX. lia.
Qed.

Lemma returned_positions_are_a_permutation_witness :
  d_ptr Examples.counter4 = usm 5%positive /\
  Examples.zeroed4 !! 5%positive
  = Some (replicate (Z.to_nat (N Examples.counter4)) 0) /\
  is_size_t 6 /\
  schedule 6 Examples.six_shuffled /\
  (forall idx, 0 <= idx < 6 -> 0 <= Examples.parity idx < N Examples.counter4) /\
  exists d' returned,
    parallel_for 6 Examples.six_shuffled
      (position_kernel Examples.counter4 Examples.parity) (Examples.zeroed4, ∅)
    = Ok (d', returned) /\
    [returned !! 0; returned !! 2; returned !! 4]
    ≡ₚ [Some 0; Some 1; Some 2] /\
    [returned !! 1; returned !! 3; returned !! 5]
    ≡ₚ [Some 0; Some 1; Some 2].
Proof.
  assert (is_size_t 6) as Hsix by (unfold is_size_t, size_t_modulus; lia).
  assert (schedule 6 Examples.six_shuffled) as Hs by decide_schedule.
  assert (forall idx, 0 <= idx < 6 ->
            0 <= Examples.parity idx < N Examples.counter4) as Htarget.
  { intros idx _. unfold Examples.parity. cbn [N Examples.counter4].
    pose proof (Z.mod_pos_bound idx 2). lia. }
  split; [reflexivity|]. split; [reflexivity|]. split; [exact Hsix|].
  split; [exact Hs|]. split; [exact Htarget|].
  destruct (returned_positions_are_a_permutation
              Examples.counter4 Examples.zeroed4 5%positive 6
              Examples.six_shuffled Examples.parity
              eq_refl eq_refl Hsix Hs Htarget)
    as (d' & returned & Hrun & Hperm).
  exists d', returned. split; [exact Hrun|]. split.
  - exact (proj1 (Hperm 0)).
  - exact (proj1 (Hperm 1)).
Defined.

Lemma workload_counts_witness :
  valid Examples.counter4 Examples.memory4 /\
  is_size_t 10 /\
  schedule 4 [2; 0; 3; 1] /\
  schedule 10 [9; 8; 7; 6; 5; 4; 3; 2; 1; 0] /\
  schedule 1024 (sched_work Examples.backwards) /\
  (∅ : device) !! 5%positive = None /\
  (exists d1 d2 cells,
     pre_kernel [2; 0; 3; 1] Examples.counter4 Examples.memory4
     = Ok (tt, Examples.counter4, d1) /\
     parallel_for 10 [9; 8; 7; 6; 5; 4; 3; 2; 1; 0]
       (increment_kernel Examples.counter4 4) d1 = Ok d2 /\
     cells_of Examples.counter4 d2 = Some cells /\
     cells !! 0%nat = Some 3 /\ cells !! 1%nat = Some 3 /\
     cells !! 2%nat = Some 2 /\ cells !! 3%nat = Some 2) /\
  main "gpu" 1%positive Examples.sevens Examples.backwards ∅
  = Ok (0, ["Using gpu"; "256"; "256"; "256"; "256"]%string, ∅).
Proof.
  assert (is_size_t 10) as Hten by (unfold is_size_t, size_t_modulus; lia).
  assert (schedule 4 [2; 0; 3; 1]) as Hsz by decide_schedule.
  assert (schedule 4 [3; 2; 1; 0]) as Hsr by decide_schedule.
  assert (schedule 10 [9; 8; 7; 6; 5; 4; 3; 2; 1; 0]) as Hsw by decide_schedule.
  assert (schedule 1024 (sched_work Examples.backwards)) as Hbig.
  { unfold schedule. cbn [sched_work Examples.backwards].
    apply reverse_Permutation. }
  assert (forall idx, 0 <= idx < 10 -> idx mod 4 <= INT_MAX) as Hint.
  { intros idx _. pose proof (Z.mod_pos_bound idx 4). unfold INT_MAX. lia. }
  destruct workload_counts as [Hgeneral Hmain].
  split; [exact counter4_valid|]. split; [exact Hten|].
  split; [exact Hsz|]. split; [exact Hsw|]. split; [exact Hbig|].
  split; [reflexivity|]. split.
  - destruct (Hgeneral Examples.counter4 Examples.memory4 4 10
                [2; 0; 3; 1] [9; 8; 7; 6; 5; 4; 3; 2; 1; 0]
                counter4_valid eq_refl ltac:(lia) Hten Hint Hsz Hsw)
      as (d1 & d2 & cells & Hzero & Hwork & Hcells & _ & Hcount).
    exists d1, d2, cells. repeat split; try done.
    + apply (Hcount 0). lia.
    + apply (Hcount 1). lia.
    + apply (Hcount 2). lia.
    + apply (Hcount 3). lia.
  - apply (Hmain "gpu"%string 1%positive 5%positive (fun _ => 7)
             Examples.backwards ∅); [reflexivity|exact Hsz|exact Hbig|exact Hsr].
Defined.

(** ** The driver, run *)

(** The instance a successful allocation yields satisfies the struct
    invariant, as long as the byte count does not wrap. *)
Lemma construct_valid q n b contents (d : device) :
  0 <= n -> n * sizeof_size_t < size_t_modulus ->
  exists this d',
    construct q n (malloc_returns (usm b) contents) d = Ok (this, d') /\
    N this = n /\ valid this d'.
Proof.
  intros Hn Hbytes. unfold construct, malloc_device.
  rewrite to_size_t_small by (unfold is_size_t, sizeof_size_t in *; lia).
  rewrite Z.div_mul by done. cbn [bind].
  eexists _, _. split; [reflexivity|]. split; [done|].
  apply valid_insert; [done|].
  rewrite length_fmap, length_seq. cbn [N]. lia.
Qed.

Example size_t_to_int_wraps : size_t_to_int (2 ^ 31) = - 2 ^ 31.
Proof. reflexivity. Qed.

Example main_runs :
  main "gpu" 1%positive Examples.sevens Examples.backwards ∅
  = Ok (0, ["Using gpu"; "256"; "256"; "256"; "256"]%string, ∅).
Proof. vm_compute. reflexivity. Qed.

Example main_without_memory :
  main "gpu" 1%positive Examples.exhausted Examples.backwards ∅ = UB.
Proof. vm_compute. reflexivity. Qed.

(** * Further properties of the code *)

(** ** Accesses through a dead pointer *)

Lemma load_dead p i d : dead p d -> load p i d = UB.
Proof. destruct p as [|b]; [done|]. simpl. intros Hdead. by rewrite Hdead. Qed.

Lemma store_dead p i v d : dead p d -> store p i v d = UB.
Proof. destruct p as [|b]; [done|]. simpl. intros Hdead. by rewrite Hdead. Qed.

Lemma fetch_add_dead p i v d : dead p d -> fetch_add p i v d = UB.
Proof. intros Hdead. unfold fetch_add. by rewrite load_dead. Qed.

Lemma run_items_first_UB {S : Type} (kernel : Z -> S -> res S) sched s :
  sched <> [] -> (forall idx, kernel idx s = UB) ->
  run_items kernel sched s = UB.
Proof.
  intros Hne Hub. destruct sched as [|idx rest]; [done|].
  cbn [run_items]. by rewrite Hub.
Qed.

Lemma schedule_nonempty n sched : 0 < n -> schedule n sched -> sched <> [].
Proof.
  unfold schedule, work_items. intros Hn Hs ->.
  apply Permutation_length in Hs. rewrite length_seqZ in Hs. simpl in Hs. lia.
Qed.

Lemma get_add_output_dead index this d :
  dead (d_ptr this) d -> get_add_output index this d = UB.
Proof. intros Hdead. unfold get_add_output. by rewrite fetch_add_dead. Qed.

Lemma pre_kernel_dead sched this d :
  dead (d_ptr this) d -> 0 < N this -> schedule (N this) sched ->
  pre_kernel sched this d = UB.
Proof.
  intros Hdead Hn Hs. unfold pre_kernel.
  rewrite parallel_for_scheduled by done.
  rewrite run_items_first_UB; [done|by apply (schedule_nonempty (N this))|].
  intros idx. by apply store_dead.
Qed.

Lemma get_counts_dead sched this d :
  dead (d_ptr this) d -> 0 < N this -> schedule (N this) sched ->
  get_counts sched this d = UB.
Proof.
  intros Hdead Hn Hs. unfold get_counts.
  rewrite parallel_for_scheduled by done.
  rewrite run_items_first_UB; [done|by apply (schedule_nonempty (N this))|].
  intros idx. unfold copy_cell. by rewrite load_dead.
Qed.

(** ** After the release *)

(** X4: once [free] has released a valid instance, the object it leaves
    (with a null [d_ptr]) cannot be used: [get_add_output] is undefined
    behaviour for every index, and with [N > 0] so are [pre_kernel] and
    [get_counts], in every order of their work items.  Nothing in the
    methods tests for the null pointer. *)
Theorem released_object_is_unusable this d :
  valid this d ->
  exists this' d',
    Counter.free this d = Ok (tt, this', d') /\
    (forall index, get_add_output index this' d' = UB) /\
    (forall sched, 0 < N this -> schedule (N this) sched ->
       pre_kernel sched this' d' = UB /\ get_counts sched this' d' = UB).
Proof.
  intros (b & cells & Hp & Hlive & _).
  exists {| queue := queue this; N := N this; d_ptr := nullptr |}, (delete b d).
  split; [by apply (free_valid this d b cells)|]. split.
  - intros index. by apply get_add_output_dead.
  - intros sched Hn Hs. split.
    + by apply pre_kernel_dead.
    + by apply get_counts_dead.
Qed.

Lemma released_object_is_unusable_witness :
  valid Examples.counter4 Examples.memory4 /\
  Counter.free Examples.counter4 Examples.memory4
  = Ok (tt, Examples.released4, ∅) /\
  get_add_output 0 Examples.released4 ∅ = UB /\
  pre_kernel [2; 0; 3; 1] Examples.released4 ∅ = UB /\
  get_counts [2; 0; 3; 1] Examples.released4 ∅ = UB.
Proof.
  assert (schedule (N Examples.counter4) [2; 0; 3; 1]) as Hs
    by decide_schedule.
  split; [exact counter4_valid|].
  destruct (released_object_is_unusable Examples.counter4 Examples.memory4
              counter4_valid) as (this' & d' & Hfree & Hcall & Hbulk).
  assert (this' = Examples.released4 /\ d' = ∅) as [-> ->].
  { vm_compute in Hfree. by injection Hfree as <- <-. }
  split; [exact Hfree|]. split; [apply Hcall|].
  apply (Hbulk [2; 0; 3; 1]); [by vm_compute|exact Hs].
Defined.

(** X5: the struct is copied bit by bit, so a copy made before the release
    still holds the old pointer afterwards.  Through such a copy every
    method is undefined behaviour once the original has been freed:
    [get_add_output] for every index, [pre_kernel] and [get_counts] when
    [N > 0], and [free] itself, which passes the null test and frees the
    allocation a second time. *)
Theorem stale_copy_is_unusable this d :
  valid this d ->
  exists this' d',
    Counter.free this d = Ok (tt, this', d') /\
    Counter.free this d' = UB /\
    (forall index, get_add_output index this d' = UB) /\
    (forall sched, 0 < N this -> schedule (N this) sched ->
       pre_kernel sched this d' = UB /\ get_counts sched this d' = UB).
Proof.
  intros (b & cells & Hp & Hlive & _).
  assert (dead (d_ptr this) (delete b d)) as Hdead.
  { rewrite Hp. simpl. apply lookup_delete_eq. }
  exists {| queue := queue this; N := N this; d_ptr := nullptr |}, (delete b d).
  split; [by apply (free_valid this d b cells)|]. split; [|split].
  - unfold Counter.free. rewrite Hp. cbn [Sycl.free].
    by rewrite lookup_delete_eq.
  - intros index. by apply get_add_output_dead.
  - intros sched Hn Hs. split.
    + by apply pre_kernel_dead.
    + by apply get_counts_dead.
Qed.

Lemma stale_copy_is_unusable_witness :
  valid Examples.counter4 Examples.memory4 /\
  Counter.free Examples.counter4 Examples.memory4
  = Ok (tt, Examples.released4, ∅) /\
  Counter.free Examples.counter4 ∅ = UB /\
  get_add_output 2 Examples.counter4 ∅ = UB /\
  get_counts [2; 0; 3; 1] Examples.counter4 ∅ = UB.
Proof.
  assert (schedule (N Examples.counter4) [2; 0; 3; 1]) as Hs
    by decide_schedule.
  split; [exact counter4_valid|].
  destruct (stale_copy_is_unusable Examples.counter4 Examples.memory4
              counter4_valid) as (this' & d' & Hfree & Hagain & Hcall & Hbulk).
  assert (this' = Examples.released4 /\ d' = ∅) as [-> ->].
  { vm_compute in Hfree. by injection Hfree as <- <-. }
  split; [exact Hfree|]. split; [exact Hagain|]. split; [apply Hcall|].
  apply (Hbulk [2; 0; 3; 1]); [by vm_compute|exact Hs].
Defined.

(** ** Construction, read back and release *)

(** X1: building a counter on a fresh block and releasing it right away
    leaves device memory exactly as it was before the constructor ran, for
    every [N]: the constructor adds the one allocation at the returned
    pointer and touches no other, and [free] removes that one and nulls
    [d_ptr]. *)
Theorem construct_then_free_restores_memory q n b contents (d : device) :
  d !! b = None ->
  exists this d1 this',
    construct q n (malloc_returns (usm b) contents) d = Ok (this, d1) /\
    is_Some (d1 !! b) /\
    (forall b', b' <> b -> d1 !! b' = d !! b') /\
    Counter.free this d1 = Ok (tt, this', d) /\
    this' = {| queue := q; N := n; d_ptr := nullptr |}.
Proof.
  intros Hfresh. unfold construct, malloc_device. cbn [bind].
  set (cells := (fun k => to_size_t (contents k)) <$> seq 0 _).
  exists {| queue := q; N := n; d_ptr := usm b |}, (<[b := cells]> d),
    {| queue := q; N := n; d_ptr := nullptr |}.
  split; [reflexivity|]. split; [|split; [|split]].
  - rewrite lookup_insert_eq. by eexists.
  - intros b' Hb'. by apply lookup_insert_ne.
  - rewrite (free_valid {| queue := q; N := n; d_ptr := usm b |} _ b cells
               eq_refl (lookup_insert_eq d b cells)).
    cbn [queue N]. by rewrite delete_insert_id.
  - reflexivity.
Qed.

Lemma construct_then_free_restores_memory_witness :
  Examples.memory4 !! 9%positive = None /\
  exists this d1,
    construct 1%positive 2 (malloc_returns (usm 9%positive) (fun _ => 7))
      Examples.memory4 = Ok (this, d1) /\
    Counter.free this d1
    = Ok (tt, {| queue := 1%positive; N := 2; d_ptr := nullptr |},
          Examples.memory4).
Proof.
  split; [reflexivity|].
  destruct (construct_then_free_restores_memory 1%positive 2 9%positive
              (fun _ => 7) Examples.memory4 eq_refl)
    as (this & d1 & this' & Hc & _ & _ & Hf & ->).
  by exists this, d1.
Defined.

(** X2: read back right after construction, before any zero-fill,
    [get_counts] returns without fault the [N] values the allocator left in
    the block, whatever they are; the constructor writes nothing to the
    cells.  The byte count [N * sizeof(size_t)] must not wrap. *)
Theorem read_after_construction q n b contents (d : device) sched :
  0 <= n -> n * sizeof_size_t < size_t_modulus ->
  schedule n sched ->
  exists this d1 counts,
    construct q n (malloc_returns (usm b) contents) d = Ok (this, d1) /\
    get_counts sched this d1 = Ok (counts, this, d1) /\
    Z.of_nat (length counts) = n /\
    forall i, 0 <= i < n ->
      counts !! Z.to_nat i = Some (to_size_t (contents (Z.to_nat i))).
Proof.
  intros Hn Hbytes Hs. unfold construct, malloc_device.
  rewrite to_size_t_small by (unfold is_size_t, sizeof_size_t in *; lia).
  rewrite Z.div_mul by done. cbn [bind].
  set (cells := (fun k => to_size_t (contents k)) <$> seq 0 (Z.to_nat n)).
  assert (Z.of_nat (length cells) = n) as Hlen.
  { unfold cells. rewrite length_fmap, length_seq. lia. }
  exists {| queue := q; N := n; d_ptr := usm b |}, (<[b := cells]> d), cells.
  split; [done|]. split; [|split; [done|]].
  - by apply (get_counts_spec _ _ b cells); [|apply lookup_insert_eq|..].
  - intros i Hi. unfold cells. rewrite list_lookup_fmap.
    rewrite lookup_seq_lt by lia. done.
Qed.

Lemma read_after_construction_witness :
  0 <= 4 /\ 4 * sizeof_size_t < size_t_modulus /\
  schedule 4 [2; 0; 3; 1] /\
  exists this d1 counts,
    construct 1%positive 4 Examples.sevens ∅ = Ok (this, d1) /\
    get_counts [2; 0; 3; 1] this d1 = Ok (counts, this, d1) /\
    counts !! 3%nat = Some 7.
Proof.
  assert (schedule 4 [2; 0; 3; 1]) as Hs by decide_schedule.
  split; [lia|]. split; [by vm_compute|]. split; [exact Hs|].
  destruct (read_after_construction 1%positive 4 5%positive (fun _ => 7) ∅
              [2; 0; 3; 1] ltac:(lia) ltac:(by vm_compute) Hs)
    as (this & d1 & counts & Hc & Hg & _ & Hcells).
  exists this, d1, counts. split; [exact Hc|]. split; [exact Hg|].
  apply (Hcells 3). lia.
Defined.

(** X3: on an instance that has not been released, [get_counts] right
    after [pre_kernel] returns [N] zeros, whatever the cells held before and
    in whatever order the work items of the two dispatches run. *)
Theorem read_after_zero_fill this d sched_z sched_r :
  valid this d ->
  schedule (N this) sched_z ->
  schedule (N this) sched_r ->
  exists d1,
    pre_kernel sched_z this d = Ok (tt, this, d1) /\
    get_counts sched_r this d1
    = Ok (replicate (Z.to_nat (N this)) 0, this, d1).
Proof.
  intros (b & cells & Hp & Hlive & Hlen) Hsz Hsr.
  exists (<[b := replicate (Z.to_nat (N this)) 0]> d).
  split; [by apply (pre_kernel_spec this d b cells)|].
  apply (get_counts_spec this _ b); [done|apply lookup_insert_eq| |done].
  rewrite length_replicate. lia.
Qed.

Lemma read_after_zero_fill_witness :
  valid Examples.counter4 Examples.memory4 /\
  schedule (N Examples.counter4) [2; 0; 3; 1] /\
  schedule (N Examples.counter4) [3; 2; 1; 0] /\
  exists d1,
    pre_kernel [2; 0; 3; 1] Examples.counter4 Examples.memory4
    = Ok (tt, Examples.counter4, d1) /\
    get_counts [3; 2; 1; 0] Examples.counter4 d1
    = Ok ([0; 0; 0; 0], Examples.counter4, d1).
Proof.
  assert (schedule (N Examples.counter4) [2; 0; 3; 1]) as Hs1
    by decide_schedule.
  assert (schedule (N Examples.counter4) [3; 2; 1; 0]) as Hs2
    by decide_schedule.
  split; [exact counter4_valid|]. split; [exact Hs1|]. split; [exact Hs2|].
  exact (read_after_zero_fill Examples.counter4 Examples.memory4
           [2; 0; 3; 1] [3; 2; 1; 0] counter4_valid Hs1 Hs2).
Defined.

(** ** Allocations that do not give N cells *)

(** X6: the constructor does not look at the pointer it gets.  When the
    allocator returns null and [N > 0], construction returns an instance
    with a null [d_ptr], and the zero-fill that follows writes through the
    null pointer: [pre_kernel] is undefined behaviour in every order of its
    work items.  So is the whole of [main] when its allocation fails that
    way. *)
Theorem null_allocation_goes_unnoticed :
  (forall q n contents (d : device) sched,
     0 < n -> schedule n sched ->
     exists this,
       construct q n (malloc_returns nullptr contents) d = Ok (this, d) /\
       d_ptr this = nullptr /\
       pre_kernel sched this d = UB) /\
  (forall name q contents ss (d : device),
     schedule 4 (sched_zero ss) ->
     main name q (malloc_returns nullptr contents) ss d = UB).
Proof.
  split.
  - intros q n contents d sched Hn Hs.
    exists {| queue := q; N := n; d_ptr := nullptr |}.
    split; [done|]. split; [done|]. by apply pre_kernel_dead.
  - intros name q contents ss d Hs. unfold main, driver, construct.
    cbn [malloc_device bind].
    by rewrite (pre_kernel_dead (sched_zero ss)
                  {| queue := q; N := 4; d_ptr := nullptr |} d).
Qed.

Lemma null_allocation_goes_unnoticed_witness :
  0 < 4 /\ schedule 4 (sched_zero Examples.backwards) /\
  (exists this,
     construct 1%positive 4 Examples.exhausted ∅ = Ok (this, ∅) /\
     pre_kernel (sched_zero Examples.backwards) this ∅ = UB) /\
  main "gpu" 1%positive Examples.exhausted Examples.backwards ∅ = UB.
Proof.
  assert (schedule 4 (sched_zero Examples.backwards)) as Hs
    by decide_schedule.
  destruct null_allocation_goes_unnoticed as [Hctor Hmain].
  split; [lia|]. split; [exact Hs|]. split.
  - destruct (Hctor 1%positive 4 (fun _ => 0) ∅
                (sched_zero Examples.backwards) ltac:(lia) Hs)
      as (this & Hc & _ & Hpre).
    by exists this.
  - by apply Hmain.
Defined.

(** A dispatch in which some work item faults has undefined behaviour,
    wherever the schedule puts that work item: the items before it either
    fault themselves or keep the state in a condition [I] under which it
    does. *)
Lemma run_items_bad_item {S : Type} (kernel : Z -> S -> res S)
  (I : S -> Prop) bad :
  (forall idx s, I s ->
     kernel idx s = UB \/ exists s', kernel idx s = Ok s' /\ I s') ->
  (forall s, I s -> kernel bad s = UB) ->
  forall sched s, I s -> bad ∈ sched -> run_items kernel sched s = UB.
Proof.
  intros Hstep Hbad. induction sched as [|idx sched IH]; intros s Hs Hin.
  - by apply elem_of_nil in Hin.
  - cbn [run_items].
    destruct (Hstep idx s Hs) as [Hub|(s' & Hok & Hs')]; [by rewrite Hub|].
    rewrite Hok. cbn [bind].
    apply elem_of_cons in Hin as [->|Hin]; [|by apply IH].
    rewrite (Hbad s Hs) in Hok. discriminate Hok.
Qed.

Lemma run_items_store_outside b v bad len sched (d : device) cells :
  d !! b = Some cells -> length cells = len ->
  ~ (0 <= bad < Z.of_nat len) -> bad ∈ sched ->
  run_items (fun idx => store (usm b) idx v) sched d = UB.
Proof.
  intros Hlive Hlen Hout Hin.
  apply (run_items_bad_item _
           (fun d' : device =>
              exists cells', d' !! b = Some cells' /\ length cells' = len)
           bad); [| |by exists cells|done].
  - intros idx d' (cells' & Hlive' & Hlen'). unfold store. rewrite Hlive'.
    destruct (decide (0 <= idx < Z.of_nat (length cells'))); [|by left].
    right. eexists. split; [done|].
    exists (<[Z.to_nat idx := v]> cells').
    split; [apply lookup_insert_eq|by rewrite length_insert].
  - intros d' (cells' & Hlive' & Hlen'). unfold store. rewrite Hlive'.
    rewrite decide_False; [done|]. by rewrite Hlen'.
Qed.

Lemma wrapped_bytes_short n :
  is_size_t n -> size_t_modulus <= n * sizeof_size_t ->
  0 <= to_size_t (n * sizeof_size_t) / sizeof_size_t < n.
Proof.
  unfold is_size_t, to_size_t, sizeof_size_t, size_t_modulus.
  intros Hn Hwrap.
  pose proof (Z.mod_pos_bound (n * 8) (2 ^ 64) ltac:(lia)) as Hr.
  pose proof (Z.div_mod (n * 8) (2 ^ 64) ltac:(lia)) as Heq.
  assert (1 <= n * 8 / 2 ^ 64) as Hq
    by (apply Z.div_le_lower_bound; lia).
  split; [apply Z.div_pos; lia|].
  apply Z.div_lt_upper_bound; lia.
Qed.

(** X7: the constructor asks for [N * sizeof(size_t)] bytes computed in
    [size_t].  When that product wraps, the block the allocator hands back
    has fewer than [N] cells; the constructor still records [N], the
    instance does not satisfy the struct invariant, [pre_kernel] runs off
    the end of the block (undefined behaviour in every order of its work
    items), and so does [get_add_output] for every index from the size of
    the block up to [N]. *)
Theorem allocation_size_wraps q n b contents (d : device) :
  is_size_t n ->
  size_t_modulus <= n * sizeof_size_t ->
  exists this d1 cells,
    construct q n (malloc_returns (usm b) contents) d = Ok (this, d1) /\
    N this = n /\
    cells_of this d1 = Some cells /\
    Z.of_nat (length cells) < n /\
    ~ valid this d1 /\
    (forall sched, schedule n sched -> pre_kernel sched this d1 = UB) /\
    (forall index, Z.of_nat (length cells) <= index < n ->
       get_add_output index this d1 = UB).
Proof.
  intros Hn Hwrap. pose proof (wrapped_bytes_short n Hn Hwrap) as Hshort.
  unfold construct, malloc_device. cbn [bind].
  set (cells := (fun k => to_size_t (contents k)) <$> seq 0 _).
  assert (Z.of_nat (length cells) < n) as Hlen.
  { unfold cells. rewrite length_fmap, length_seq. lia. }
  set (this := {| queue := q; N := n; d_ptr := usm b |}).
  exists this, (<[b := cells]> d), cells.
  split; [done|]. split; [done|].
  split; [unfold cells_of; cbn [d_ptr this]; apply lookup_insert_eq|].
  split; [done|]. split; [|split].
  - intros (b' & cells' & Hp & Hlive & Hlen').
    injection Hp as <-. rewrite lookup_insert_eq in Hlive.
    injection Hlive as <-. cbn [N this] in Hlen'. lia.
  - intros sched Hs.
    assert (Z.of_nat (length cells) ∈ sched) as Hin
      by (apply (schedule_covers n); [done|lia]).
    unfold pre_kernel. cbn [N d_ptr this].
    rewrite parallel_for_scheduled by done.
    rewrite (run_items_store_outside b 0 (Z.of_nat (length cells))
               (length cells) sched _ cells);
      [done|apply lookup_insert_eq|done|lia|done].
  - intros index Hindex. unfold get_add_output. cbn [d_ptr this].
    rewrite (fetch_add_outside _ b cells (lookup_insert_eq d b cells));
      [done|lia].
Qed.

Lemma allocation_size_wraps_witness :
  is_size_t (2 ^ 61 + 1) /\
  size_t_modulus <= (2 ^ 61 + 1) * sizeof_size_t /\
  exists this d1 cells,
    construct 1%positive (2 ^ 61 + 1) Examples.sevens ∅ = Ok (this, d1) /\
    cells_of this d1 = Some cells /\
    Z.of_nat (length cells) < 2 ^ 61 + 1 /\
    ~ valid this d1 /\
    pre_kernel (work_items (2 ^ 61 + 1)) this d1 = UB.
Proof.
  assert (is_size_t (2 ^ 61 + 1)) as Hn
    by (unfold is_size_t, size_t_modulus; lia).
  assert (size_t_modulus <= (2 ^ 61 + 1) * sizeof_size_t) as Hwrap
    by (unfold size_t_modulus, sizeof_size_t; lia).
  split; [exact Hn|]. split; [exact Hwrap|].
  destruct (allocation_size_wraps 1%positive (2 ^ 61 + 1) 5%positive
              (fun _ => 7) ∅ Hn Hwrap)
    as (this & d1 & cells & Hc & _ & Hcells & Hlen & Hinv & Hrun & _).
  exists this, d1, cells. repeat split; try done.
  apply (Hrun (work_items (2 ^ 61 + 1))). unfold schedule. reflexivity.
Defined.

(** ** Calls one after the other *)

(** X10: on an instance that has not been released, two calls of
    [get_add_output] on different indices in [0, N) do not see each other:
    each returns what it would have returned alone, and both orders leave
    the same device memory. *)
Theorem calls_on_different_indices_commute this d i j :
  valid this d ->
  0 <= i < N this -> 0 <= j < N this -> i <> j ->
  exists vi vj di dj d2,
    get_add_output i this d = Ok (vi, this, di) /\
    get_add_output j this di = Ok (vj, this, d2) /\
    get_add_output j this d = Ok (vj, this, dj) /\
    get_add_output i this dj = Ok (vi, this, d2).
Proof.
  intros (b & cells & Hp & Hlive & Hlen) Hi Hj Hne.
  rewrite <- Hlen in Hi, Hj.
  set (ci := <[Z.to_nat i := to_size_t (cell cells i + 1)]> cells).
  set (cj := <[Z.to_nat j := to_size_t (cell cells j + 1)]> cells).
  exists (cell cells i), (cell cells j), (<[b := ci]> d), (<[b := cj]> d).
  exists (<[b := <[Z.to_nat j := to_size_t (cell cells j + 1)]> ci]> d).
  split; [by apply get_add_output_spec|]. split; [|split].
  - rewrite (get_add_output_spec this _ b ci);
      [|done|apply lookup_insert_eq|unfold ci; by rewrite length_insert].
    rewrite insert_insert_eq. unfold ci.
    by rewrite cell_insert_ne by (lia || done).
  - by apply get_add_output_spec.
  - rewrite (get_add_output_spec this _ b cj);
      [|done|apply lookup_insert_eq|unfold cj; by rewrite length_insert].
    rewrite insert_insert_eq. unfold ci, cj.
    rewrite cell_insert_ne by (lia || done).
    do 3 f_equal. apply list_insert_insert_ne. lia.
Qed.

Lemma calls_on_different_indices_commute_witness :
  valid Examples.counter4 Examples.memory4 /\
  exists di dj d2,
    get_add_output 0 Examples.counter4 Examples.memory4
    = Ok (3, Examples.counter4, di) /\
    get_add_output 2 Examples.counter4 di = Ok (7, Examples.counter4, d2) /\
    get_add_output 2 Examples.counter4 Examples.memory4
    = Ok (7, Examples.counter4, dj) /\
    get_add_output 0 Examples.counter4 dj = Ok (3, Examples.counter4, d2).
Proof.
  split; [exact counter4_valid|].
  destruct (calls_on_different_indices_commute Examples.counter4
              Examples.memory4 0 2 counter4_valid)
    as (vi & vj & di & dj & d2 & H1 & H2 & H3 & H4);
    [by vm_compute|by vm_compute|done|].
  assert (vi = 3) as -> by (vm_compute in H1; congruence).
  assert (vj = 7) as -> by (vm_compute in H3; congruence).
  by exists di, dj, d2.
Defined.

Lemma to_size_t_succ_differs v : to_size_t (v + 1) <> v.
Proof.
  unfold to_size_t, size_t_modulus. intros Heq.
  pose proof (Z.mod_pos_bound (v + 1) (2 ^ 64) ltac:(lia)) as Hr.
  destruct (decide (v + 1 < 2 ^ 64)) as [Hlt|Hge].
  - rewrite Z.mod_small in Heq by lia. lia.
  - assert (v + 1 = 2 ^ 64) as Hv by lia.
    rewrite Hv, Z.mod_same in Heq by lia. lia.
Qed.

(** X11: on an instance that has not been released, two calls of
    [get_add_output] in a row on one index in [0, N) never return the same
    value, whatever the cell held: the first returns the cell's value [v],
    the second [(v + 1) mod 2^64], and the cell is left at
    [(v + 2) mod 2^64].  Positions continue from what the cell holds; only
    after a zero-fill do they start at zero. *)
Theorem successive_calls_get_successive_positions this d i :
  valid this d ->
  0 <= i < N this ->
  exists v d1 d2,
    load (d_ptr this) i d = Ok v /\
    get_add_output i this d = Ok (v, this, d1) /\
    get_add_output i this d1 = Ok (to_size_t (v + 1), this, d2) /\
    to_size_t (v + 1) <> v /\
    load (d_ptr this) i d2 = Ok (to_size_t (v + 2)).
Proof.
  intros (b & cells & Hp & Hlive & Hlen) Hi. rewrite <- Hlen in Hi.
  set (c1 := <[Z.to_nat i := to_size_t (cell cells i + 1)]> cells).
  assert (Z.of_nat (length c1) = Z.of_nat (length cells)) as Hlen1
    by (unfold c1; by rewrite length_insert).
  assert (cell c1 i = to_size_t (cell cells i + 1)) as Hc1
    by (unfold c1; by apply cell_insert_eq).
  exists (cell cells i), (<[b := c1]> d).
  exists (<[b := <[Z.to_nat i := to_size_t (cell c1 i + 1)]> c1]> d).
  split; [|split; [|split; [|split]]].
  - rewrite Hp. apply (load_inside d b cells Hlive); [lia|].
    by apply lookup_cell.
  - by apply get_add_output_spec.
  - rewrite (get_add_output_spec this _ b c1);
      [|done|apply lookup_insert_eq|lia].
    by rewrite insert_insert_eq, Hc1.
  - apply to_size_t_succ_differs.
  - rewrite Hp.
    apply (load_inside _ b (<[Z.to_nat i := to_size_t (cell c1 i + 1)]> c1));
      [apply lookup_insert_eq|lia|].
    rewrite list_lookup_insert_eq by lia. f_equal.
    rewrite Hc1, to_size_t_add_l. f_equal. lia.
Qed.

Lemma successive_calls_get_successive_positions_witness :
  valid Examples.counter4 Examples.memory4 /\
  exists d1 d2,
    get_add_output 2 Examples.counter4 Examples.memory4
    = Ok (7, Examples.counter4, d1) /\
    get_add_output 2 Examples.counter4 d1 = Ok (8, Examples.counter4, d2) /\
    load (d_ptr Examples.counter4) 2 d2 = Ok 9.
Proof.
  split; [exact counter4_valid|].
  destruct (successive_calls_get_successive_positions Examples.counter4
              Examples.memory4 2 counter4_valid)
    as (v & d1 & d2 & Hv & H1 & H2 & _ & H3); [by vm_compute|].
  assert (v = 7) as -> by (vm_compute in Hv; congruence).
  by exists d1, d2.
Defined.

(** ** The int parameter *)

Lemma size_t_to_int_negative r :
  2 ^ 31 <= r < 2 ^ 32 -> size_t_to_int r = r - 2 ^ 32.
Proof.
  intros Hr. unfold size_t_to_int.
  replace (r + 2 ^ 31) with (r - 2 ^ 31 + 1 * 2 ^ 32) by lia.
  rewrite Z.mod_add by lia. rewrite Z.mod_small; lia.
Qed.

(** X12: [get_add_output] takes its index as an [int], while [N] and the
    work-item ids are [size_t].  A [size_t] value in [2^31, 2^32) passed
    as the index arrives as a negative [int] (two's complement), so the call
    is an access before the start of the buffer, also when the value is
    below [N]: the workload kernel has undefined behaviour for every work
    item whose [idx % count] is that large. *)
Theorem index_beyond_int_is_out_of_bounds this d r :
  valid this d ->
  2 ^ 31 <= r < 2 ^ 32 ->
  size_t_to_int r < 0 /\
  get_add_output (size_t_to_int r) this d = UB /\
  (forall count idx, count <> 0 -> idx mod count = r ->
     increment_kernel this count idx d = UB).
Proof.
  intros Hvalid Hr.
  assert (size_t_to_int r < 0) as Hneg
    by (rewrite size_t_to_int_negative by done; lia).
  assert (get_add_output (size_t_to_int r) this d = UB) as Hub.
  { destruct Hvalid as (b & cells & Hp & Hlive & Hlen).
    unfold get_add_output. rewrite Hp.
    rewrite (fetch_add_outside d b cells Hlive); [done|lia]. }
  split; [done|]. split; [done|].
  intros count idx Hcount Hmod. unfold increment_kernel, size_t_rem.
  rewrite decide_False by done. cbn [bind]. by rewrite Hmod, Hub.
Qed.

Lemma index_beyond_int_is_out_of_bounds_witness :
  valid Examples.counter4 Examples.memory4 /\
  2 ^ 31 <= 2 ^ 31 + 5 < 2 ^ 32 /\
  size_t_to_int (2 ^ 31 + 5) < 0 /\
  increment_kernel Examples.counter4 (2 ^ 32) (2 ^ 31 + 5) Examples.memory4
  = UB.
Proof.
  split; [exact counter4_valid|]. split; [lia|].
  destruct (index_beyond_int_is_out_of_bounds Examples.counter4
              Examples.memory4 (2 ^ 31 + 5) counter4_valid ltac:(lia))
    as (Hneg & _ & Hkernel).
  split; [exact Hneg|]. apply Hkernel; [lia|]. by vm_compute.
Defined.

(** ** The workload without a zero-fill, and what it adds up to *)

(** X8: the workload adds to what the cells hold.  On an instance that has
    not been released, with [count = N > 0] cells holding [size_t] values,
    a workload of [W] work items that is not preceded by a zero-fill
    returns and leaves cell [i] at its old value plus
    [ceil ((W - i) / count)] (modulo 2^64), in whatever order the work
    items run; no other allocation changes.  It is [pre_kernel] that makes
    the counts start from zero. *)
Theorem workload_accumulates this (d : device) count W sched :
  valid this d ->
  N this = count ->
  0 < count ->
  is_size_t W ->
  (forall idx, 0 <= idx < W -> idx mod count <= INT_MAX) ->
  schedule W sched ->
  forall cells, cells_of this d = Some cells -> Forall is_size_t cells ->
  exists d' cells',
    parallel_for W sched (increment_kernel this count) d = Ok d' /\
    cells_of this d' = Some cells' /\
    length cells' = length cells /\
    same_outside (d_ptr this) d d' /\
    forall i, 0 <= i < count ->
      cells' !! Z.to_nat i
      = Some (to_size_t (cell cells i + ceil_div (W - i) count)).
Proof.
  intros (b & cells0 & Hp & Hlive & Hlen) HN Hcount HW Hint Hs cells Hcells
    Hsz.
  unfold cells_of in Hcells. rewrite Hp, Hlive in Hcells.
  injection Hcells as ->. unfold is_size_t in HW.
  assert (Forall (fun idx =>
            0 <= driver_target count idx < Z.of_nat (length cells)) sched)
    as Hrange.
  { apply Forall_forall. intros idx Hin.
    apply (schedule_in_range W) in Hin; [|done].
    rewrite driver_target_small by (lia || by apply Hint).
    pose proof (Z.mod_pos_bound idx count Hcount). lia. }
  pose proof (run_items_position this b (driver_target count) sched
                d cells ∅ Hp Hlive Hrange) as Hrun.
  apply run_items_increment in Hrun; [|lia]. cbn [fst] in Hrun.
  set (cells' := (record_all (driver_target count) sched (cells, ∅)).1) in *.
  assert (length cells' = length cells) as Hlen'
    by (unfold cells'; by rewrite length_record_all).
  exists (<[b := cells']> d), cells'.
  split; [by rewrite parallel_for_scheduled|].
  split; [unfold cells_of; rewrite Hp; apply lookup_insert_eq|].
  split; [done|]. split.
  - intros b' Hb'. rewrite Hp in Hb'. apply lookup_insert_ne. congruence.
  - intros i Hi. rewrite lookup_cell by lia. f_equal. unfold cells'.
    rewrite record_all_cells by done.
    rewrite (hits_schedule _ _ W) by done.
    by rewrite hits_driver_target by (done || lia).
Qed.

Lemma workload_accumulates_witness :
  valid Examples.counter4 Examples.memory4 /\
  is_size_t 10 /\
  schedule 10 [9; 8; 7; 6; 5; 4; 3; 2; 1; 0] /\
  cells_of Examples.counter4 Examples.memory4 = Some [3; 0; 7; 1] /\
  Forall is_size_t [3; 0; 7; 1] /\
  exists d' cells',
    parallel_for 10 [9; 8; 7; 6; 5; 4; 3; 2; 1; 0]
      (increment_kernel Examples.counter4 4) Examples.memory4 = Ok d' /\
    cells_of Examples.counter4 d' = Some cells' /\
    cells' !! 0%nat = Some 6 /\ cells' !! 1%nat = Some 3 /\
    cells' !! 2%nat = Some 9 /\ cells' !! 3%nat = Some 3.
Proof.
  assert (is_size_t 10) as Hten by (unfold is_size_t, size_t_modulus; lia).
  assert (schedule 10 [9; 8; 7; 6; 5; 4; 3; 2; 1; 0]) as Hs
    by decide_schedule.
  assert (Forall is_size_t [3; 0; 7; 1]) as Hsz
    by (repeat constructor; unfold size_t_modulus; lia).
  assert (forall idx, 0 <= idx < 10 -> idx mod 4 <= INT_MAX) as Hint.
  { intros idx _. pose proof (Z.mod_pos_bound idx 4). unfold INT_MAX. lia. }
  split; [exact counter4_valid|]. split; [exact Hten|]. split; [exact Hs|].
  split; [reflexivity|]. split; [exact Hsz|].
  destruct (workload_accumulates Examples.counter4 Examples.memory4 4 10
              [9; 8; 7; 6; 5; 4; 3; 2; 1; 0] counter4_valid eq_refl
              ltac:(lia) Hten Hint Hs [3; 0; 7; 1] eq_refl Hsz)
    as (d' & cells' & Hrun & Hcells & _ & _ & Hcount).
  exists d', cells'. split; [exact Hrun|]. split; [exact Hcells|].
  split; [apply (Hcount 0); lia|]. split; [apply (Hcount 1); lia|].
  split; [apply (Hcount 2); lia|apply (Hcount 3); lia].
Defined.

Lemma total_insert (cells : list Z) j v w :
  cells !! j = Some v -> total (<[j := w]> cells) = total cells - v + w.
Proof.
  revert j. induction cells as [|c cells IH]; intros [|j] Hj; try done.
  - injection Hj as ->. simpl. lia.
  - simpl in *. rewrite (IH j Hj). lia.
Qed.

Lemma total_zeros n : total (replicate n 0) = 0.
Proof. induction n as [|n IH]; [done|]. simpl. by rewrite IH. Qed.

Lemma record_all_total target sched : forall cells returned m,
  Forall (fun c => 0 <= c <= m) cells ->
  Forall (fun idx => 0 <= target idx < Z.of_nat (length cells)) sched ->
  m + Z.of_nat (length sched) < size_t_modulus ->
  total (record_all target sched (cells, returned)).1
  = total cells + Z.of_nat (length sched).
Proof.
  induction sched as [|idx sched IH]; intros cells returned m Hm Hrange Hfit.
  - simpl. lia.
  - apply Forall_cons in Hrange as [Hidx Hrange].
    rewrite record_all_cons. unfold record_step. cbn [fst snd].
    pose proof (lookup_cell cells (target idx) Hidx) as Hc.
    pose proof (Forall_lookup_1 _ _ _ _ Hm Hc) as Hcm. simpl in Hcm.
    cbn [length] in Hfit.
    rewrite (to_size_t_small (cell cells (target idx) + 1))
      by (unfold is_size_t; lia).
    rewrite (IH _ _ (m + 1)).
    + rewrite (total_insert cells _ _ _ Hc). cbn [length]. lia.
    + apply Forall_insert; [|lia].
      eapply Forall_impl; [exact Hm|]. simpl. lia.
    + by rewrite length_insert.
    + lia.
Qed.

(** X9: no increment is lost and none is counted twice.  After a zero-fill
    and a workload of [W] work items on [count = N > 0] cells, the cells
    add up to exactly [W], in whatever order the work items run. *)
Theorem counts_add_up_to_the_workload this (d : device) count W
  sched_z sched_w :
  valid this d ->
  N this = count ->
  0 < count ->
  is_size_t W ->
  (forall idx, 0 <= idx < W -> idx mod count <= INT_MAX) ->
  schedule count sched_z ->
  schedule W sched_w ->
  exists d1 d2 cells,
    pre_kernel sched_z this d = Ok (tt, this, d1) /\
    parallel_for W sched_w (increment_kernel this count) d1 = Ok d2 /\
    cells_of this d2 = Some cells /\
    total cells = W.
Proof.
  intros (b & cells0 & Hp & Hlive & Hlen) HN Hcount HW Hint Hsz Hsw.
  unfold is_size_t in HW.
  set (zeros := replicate (Z.to_nat count) 0).
  assert (length zeros = Z.to_nat count) as Hzlen
    by (unfold zeros; apply length_replicate).
  assert (Forall (fun idx =>
            0 <= driver_target count idx < Z.of_nat (length zeros)) sched_w)
    as Hrange.
  { apply Forall_forall. intros idx Hin.
    apply (schedule_in_range W) in Hin; [|done].
    rewrite driver_target_small by (lia || by apply Hint).
    pose proof (Z.mod_pos_bound idx count Hcount). lia. }
  assert (length sched_w = Z.to_nat W) as Hwlen.
  { unfold schedule, work_items in Hsw. by rewrite Hsw, length_seqZ. }
  pose proof (run_items_position this b (driver_target count) sched_w
                (<[b := zeros]> d) zeros ∅ Hp (lookup_insert_eq d b zeros)
                Hrange) as Hrun.
  apply run_items_increment in Hrun; [|lia]. cbn [fst] in Hrun.
  set (cells := (record_all (driver_target count) sched_w (zeros, ∅)).1) in *.
  exists (<[b := zeros]> d), (<[b := cells]> (<[b := zeros]> d)), cells.
  split; [|split; [|split]].
  - unfold zeros. rewrite <- HN in *.
    by apply (pre_kernel_spec this d b cells0).
  - rewrite parallel_for_scheduled by done. exact Hrun.
  - unfold cells_of. rewrite Hp. apply lookup_insert_eq.
  - unfold cells. rewrite (record_all_total _ _ _ _ 0).
    + unfold zeros. rewrite total_zeros. lia.
    + unfold zeros. apply Forall_replicate. lia.
    + done.
    + lia.
Qed.

Lemma counts_add_up_to_the_workload_witness :
  valid Examples.counter4 Examples.memory4 /\
  is_size_t 10 /\
  schedule 4 [2; 0; 3; 1] /\
  schedule 10 [9; 8; 7; 6; 5; 4; 3; 2; 1; 0] /\
  exists d1 d2 cells,
    pre_kernel [2; 0; 3; 1] Examples.counter4 Examples.memory4
    = Ok (tt, Examples.counter4, d1) /\
    parallel_for 10 [9; 8; 7; 6; 5; 4; 3; 2; 1; 0]
      (increment_kernel Examples.counter4 4) d1 = Ok d2 /\
    cells_of Examples.counter4 d2 = Some cells /\
    total cells = 10.
Proof.
  assert (is_size_t 10) as Hten by (unfold is_size_t, size_t_modulus; lia).
  assert (schedule 4 [2; 0; 3; 1]) as Hsz by decide_schedule.
  assert (schedule 10 [9; 8; 7; 6; 5; 4; 3; 2; 1; 0]) as Hsw
    by decide_schedule.
  assert (forall idx, 0 <= idx < 10 -> idx mod 4 <= INT_MAX) as Hint.
  { intros idx _. pose proof (Z.mod_pos_bound idx 4). unfold INT_MAX. lia. }
  split; [exact counter4_valid|]. split; [exact Hten|].
  split; [exact Hsz|]. split; [exact Hsw|].
  exact (counts_add_up_to_the_workload Examples.counter4 Examples.memory4
           4 10 [2; 0; 3; 1] [9; 8; 7; 6; 5; 4; 3; 2; 1; 0]
           counter4_valid eq_refl ltac:(lia) Hten Hint Hsz Hsw).
Defined.

(** ** Which position a work item gets *)

Lemma record_all_app target l1 l2 s :
  record_all target (l1 ++ l2) s = record_all target l2 (record_all target l1 s).
Proof. unfold record_all. apply foldl_app. Qed.

(** X13: the value [get_add_output] hands to a caller is its position in
    the order of arrival on that index.  From a zero-filled buffer, in a
    dispatch whose work item [idx] calls on index [target idx], the work
    item receives the number of work items calling on the same index that
    the schedule ran before it. *)
Theorem position_counts_the_earlier_callers this d b n target before idx after :
  d_ptr this = usm b ->
  d !! b = Some (replicate (Z.to_nat (N this)) 0) ->
  is_size_t n ->
  schedule n (before ++ idx :: after) ->
  (forall idx', 0 <= idx' < n -> 0 <= target idx' < N this) ->
  exists d' returned,
    parallel_for n (before ++ idx :: after) (position_kernel this target)
      (d, ∅) = Ok (d', returned) /\
    returned !! idx = Some (Z.of_nat (hits target (target idx) before)).
Proof.
  intros Hp Hlive Hn Hs Htarget. unfold is_size_t in Hn.
  set (zeros := replicate (Z.to_nat (N this)) 0) in *.
  set (sched := before ++ idx :: after) in *.
  assert (Forall (fun idx' => 0 <= target idx' < Z.of_nat (length zeros)) sched)
    as Hrange.
  { apply Forall_forall. intros idx' Hin.
    apply (schedule_in_range n) in Hin; [|done].
    unfold zeros. rewrite length_replicate.
    specialize (Htarget idx' Hin). lia. }
  eexists _, _. split.
  { rewrite parallel_for_scheduled by done.
    by apply (run_items_position this b target sched d zeros ∅). }
  pose proof (schedule_NoDup n sched Hs) as Hnd.
  unfold sched in Hnd, Hrange.
  apply NoDup_app in Hnd as (_ & _ & [Hnotin _]%NoDup_cons).
  apply Forall_app in Hrange as [Hbefore _].
  unfold sched. rewrite record_all_app, record_all_cons.
  rewrite record_all_elsewhere by done.
  destruct (record_all target before (zeros, ∅)) as [cells returned] eqn:Hrec.
  unfold record_step. cbn [fst snd]. rewrite lookup_insert_eq. f_equal.
  replace cells with (record_all target before (zeros, ∅)).1
    by (by rewrite Hrec).
  rewrite record_all_cells by (done || apply zeros_are_size_t).
  unfold zeros. rewrite cell_zeros, Z.add_0_l. apply to_size_t_small.
  pose proof (hits_le target (target idx) before) as Hle.
  assert (length sched = Z.to_nat n) as Hlen.
  { unfold schedule, work_items in Hs. by rewrite Hs, length_seqZ. }
  unfold sched in Hlen. rewrite length_app in Hlen.
  unfold is_size_t. lia.
Qed.

Lemma position_counts_the_earlier_callers_witness :
  d_ptr Examples.counter4 = usm 5%positive /\
  Examples.zeroed4 !! 5%positive
  = Some (replicate (Z.to_nat (N Examples.counter4)) 0) /\
  is_size_t 6 /\
  schedule 6 ([4; 1; 5; 0] ++ 3 :: [2]) /\
  (forall idx, 0 <= idx < 6 -> 0 <= Examples.parity idx < N Examples.counter4) /\
  exists d' returned,
    parallel_for 6 Examples.six_shuffled
      (position_kernel Examples.counter4 Examples.parity) (Examples.zeroed4, ∅)
    = Ok (d', returned) /\
    returned !! 3 = Some 2.
Proof.
  assert (is_size_t 6) as Hsix by (unfold is_size_t, size_t_modulus; lia).
  assert (schedule 6 ([4; 1; 5; 0] ++ 3 :: [2])) as Hs by decide_schedule.
  assert (forall idx, 0 <= idx < 6 ->
            0 <= Examples.parity idx < N Examples.counter4) as Htarget.
  { intros idx _. unfold Examples.parity. cbn [N Examples.counter4].
    pose proof (Z.mod_pos_bound idx 2). lia. }
  split; [reflexivity|]. split; [reflexivity|]. split; [exact Hsix|].
  split; [exact Hs|]. split; [exact Htarget|].
  exact (position_counts_the_earlier_callers Examples.counter4
           Examples.zeroed4 5%positive 6 Examples.parity [4; 1; 5; 0] 3 [2]
           eq_refl eq_refl Hsix Hs Htarget).
Defined.

(** ** The workload on more cells than an int can index *)

Lemma increment_kernel_keeps_valid this count idx d :
  valid this d ->
  increment_kernel this count idx d = UB \/
  exists d', increment_kernel this count idx d = Ok d' /\ valid this d'.
Proof.
  intros (b & cells & Hp & Hlive & Hlen).
  unfold increment_kernel, size_t_rem.
  destruct (decide (count = 0)); [by left|]. cbn [bind].
  set (index := size_t_to_int (idx mod count)).
  destruct (decide (0 <= index < Z.of_nat (length cells))) as [Hin|Hout].
  - right. rewrite (get_add_output_spec this d b cells index) by done.
    cbn [bind]. eexists. split; [reflexivity|].
    apply valid_insert; [done|]. by rewrite length_insert.
  - left. unfold get_add_output. rewrite Hp.
    by rewrite (fetch_add_outside d b cells Hlive).
Qed.

Lemma increment_kernel_beyond_int this count idx d :
  valid this d -> count <> 0 -> 2 ^ 31 <= idx mod count < 2 ^ 32 ->
  increment_kernel this count idx d = UB.
Proof.
  intros (b & cells & Hp & Hlive & Hlen) Hcount Hr.
  unfold increment_kernel, size_t_rem.
  rewrite decide_False by done. cbn [bind].
  unfold get_add_output. rewrite Hp.
  rewrite (fetch_add_outside d b cells Hlive); [done|].
  rewrite size_t_to_int_negative by done. lia.
Qed.

(** One work item whose index does not fit the [int] parameter makes the
    whole dispatch undefined, wherever the schedule puts it. *)
Lemma workload_beyond_int this count W sched d idx :
  valid this d -> count <> 0 -> schedule W sched ->
  0 <= idx < W -> 2 ^ 31 <= idx mod count < 2 ^ 32 ->
  parallel_for W sched (increment_kernel this count) d = UB.
Proof.
  intros Hvalid Hcount Hs Hidx Hr.
  rewrite parallel_for_scheduled by done.
  apply (run_items_bad_item _ (valid this) idx).
  - intros idx' d'. apply increment_kernel_keeps_valid.
  - intros d' Hvalid'. by apply increment_kernel_beyond_int.
  - done.
  - by apply (schedule_covers W).
Qed.

Lemma pre_kernel_zero_fills_valid this d sched d1 :
  valid this d -> schedule (N this) sched ->
  pre_kernel sched this d = Ok (tt, this, d1) -> valid this d1.
Proof.
  intros (b & cells & Hp & Hlive & Hlen) Hs Hzero.
  rewrite (pre_kernel_spec this d b cells sched Hp Hlive Hlen Hs) in Hzero.
  injection Hzero as <-. apply valid_insert; [done|].
  rewrite length_replicate. lia.
Qed.

Lemma wide_counter_valid : valid Examples.wide_counter Examples.wide_memory.
Proof.
  exists 5%positive, (replicate (Z.to_nat (2 ^ 32)) 0).
  split; [reflexivity|]. split; [apply lookup_singleton_eq|].
  rewrite length_replicate. cbn [N Examples.wide_counter]. lia.
Qed.

(** C3 as stated fails.  With [count = N = 2^32] cells and
    [W = 2^31 + 1] work items, both of them [size_t] values, work item
    [2^31] passes [2^31] to the [int] parameter of [get_add_output], where
    it arrives as [-2^31]: the dispatch is an access before the buffer and
    leaves no count at all. *)
Lemma workload_counts_fails_beyond_int :
  valid Examples.wide_counter Examples.wide_memory /\
  N Examples.wide_counter = 2 ^ 32 /\
  is_size_t (2 ^ 31 + 1) /\
  schedule (2 ^ 32) (work_items (2 ^ 32)) /\
  schedule (2 ^ 31 + 1) (work_items (2 ^ 31 + 1)) /\
  (forall d1,
     pre_kernel (work_items (2 ^ 32)) Examples.wide_counter
       Examples.wide_memory = Ok (tt, Examples.wide_counter, d1) ->
     parallel_for (2 ^ 31 + 1) (work_items (2 ^ 31 + 1))
       (increment_kernel Examples.wide_counter (2 ^ 32)) d1 = UB) /\
  ~ (forall this (d : device) count W sched_z sched_w,
       valid this d ->
       N this = count ->
       0 < count ->
       is_size_t W ->
       schedule count sched_z ->
       schedule W sched_w ->
       exists d1 d2 cells,
         pre_kernel sched_z this d = Ok (tt, this, d1) /\
         parallel_for W sched_w (increment_kernel this count) d1 = Ok d2 /\
         cells_of this d2 = Some cells /\
         Z.of_nat (length cells) = count /\
         forall i, 0 <= i < count ->
           cells !! Z.to_nat i = Some (ceil_div (W - i) count)).
Proof.
  assert (is_size_t (2 ^ 31 + 1)) as HW
    by (unfold is_size_t, size_t_modulus; lia).
  assert (schedule (2 ^ 32) (work_items (2 ^ 32))) as Hsz
    by (unfold schedule; reflexivity).
  assert (schedule (2 ^ 31 + 1) (work_items (2 ^ 31 + 1))) as Hsw
    by (unfold schedule; reflexivity).
  assert (forall d1,
            pre_kernel (work_items (2 ^ 32)) Examples.wide_counter
              Examples.wide_memory = Ok (tt, Examples.wide_counter, d1) ->
            parallel_for (2 ^ 31 + 1) (work_items (2 ^ 31 + 1))
              (increment_kernel Examples.wide_counter (2 ^ 32)) d1 = UB)
    as Hfault.
  { intros d1 Hzero.
    pose proof (pre_kernel_zero_fills_valid Examples.wide_counter
                  Examples.wide_memory (work_items (2 ^ 32)) d1
                  wide_counter_valid Hsz Hzero) as Hvalid1.
    apply (workload_beyond_int _ _ _ _ _ (2 ^ 31));
      [exact Hvalid1|lia|exact Hsw|lia|].
    rewrite Z.mod_small; lia. }
  split; [exact wide_counter_valid|]. split; [reflexivity|].
  split; [exact HW|]. split; [exact Hsz|]. split; [exact Hsw|].
  split; [exact Hfault|].
  intros Hclaim.
  destruct (Hclaim Examples.wide_counter Examples.wide_memory (2 ^ 32)
              (2 ^ 31 + 1) (work_items (2 ^ 32)) (work_items (2 ^ 31 + 1))
              wide_counter_valid eq_refl ltac:(lia) HW Hsz Hsw)
    as (d1 & d2 & cells & Hzero & Hwork & _).
  rewrite (Hfault d1 Hzero) in Hwork. discriminate Hwork.
Qed.
